(** * A shallow embedding of the SFU core (package [sfu])

    The development follows the three source files:

    - [clienttrack.go]: the simulcast client track ([push],
      [getDistributedQuality]);
    - the metadata utility ([Metadata], [OnMetaChangedSubscription]);
    - the client signaling state machine and the room orchestrator
      ([IsAllowNegotiation], [negotiateQueuOp], [renegotiateQueuOp],
      [allowRemoteRenegotiationQueuOp], [removePublishedTrack],
      [GetCurrentTracks], [SFU.removeTrack], [SFU.SyncTrack]).

    Go's fixed-width unsigned integers are integers of [Z] with the
    wrap-around written out; Go maps are [gmap]s; a [range] over a Go map,
    whose order the runtime picks, is a traversal of a list given in the
    order of that particular iteration.  Calls into the WebRTC stack are
    inputs of the model (an environment record per call), and what the code
    sends out (RTP writes, PLI requests, signaling callbacks) is collected
    in an explicit list of events. *)

From Stdlib Require Import ZArith Lia List Bool.
From stdpp Require Import gmap strings list fin_maps.

Local Open Scope Z_scope.

(** ** Machine integers *)

Definition wrap32 (z : Z) : Z := z mod 2 ^ 32.
Definition wrap16 (z : Z) : Z := z mod 2 ^ 16.

(** [uint32] subtraction, multiplication and addition. *)
Definition sub32 (a b : Z) : Z := wrap32 (a - b).
Definition mul32 (a b : Z) : Z := wrap32 (a * b).
Definition add32 (a b : Z) : Z := wrap32 (a + b).

(** ** Types of the WebRTC stack used by the source *)

Inductive PeerConnectionState :=
| PeerConnectionStateNew
| PeerConnectionStateConnecting
| PeerConnectionStateConnected
| PeerConnectionStateDisconnected
| PeerConnectionStateFailed
| PeerConnectionStateClosed.

Inductive ICEConnectionState :=
| ICEConnectionStateNew
| ICEConnectionStateChecking
| ICEConnectionStateConnected
| ICEConnectionStateCompleted
| ICEConnectionStateDisconnected
| ICEConnectionStateFailed
| ICEConnectionStateClosed.

Inductive SignalingState :=
| SignalingStateStable
| SignalingStateHaveLocalOffer
| SignalingStateHaveRemoteOffer
| SignalingStateHaveLocalPranswer
| SignalingStateHaveRemotePranswer
| SignalingStateClosed.

Inductive RTPCodecType := RTPCodecTypeAudio | RTPCodecTypeVideo.

Global Instance PeerConnectionState_eq_dec : EqDecision PeerConnectionState.
Proof. solve_decision. Defined.
Global Instance ICEConnectionState_eq_dec : EqDecision ICEConnectionState.
Proof. solve_decision. Defined.
Global Instance SignalingState_eq_dec : EqDecision SignalingState.
Proof. solve_decision. Defined.
Global Instance RTPCodecType_eq_dec : EqDecision RTPCodecType.
Proof. solve_decision. Defined.

(** * Simulcast client track ([clienttrack.go]) *)

Module ClientTrack.

(** The quality levels.  Their declaration is not part of the three files;
    [push] compares the last quality with [0] where the specification speaks
    of the quality [None], so [QualityNone] is the zero value. *)
Inductive QualityLevel := QualityNone | QualityLow | QualityMid | QualityHigh.

Global Instance QualityLevel_eq_dec : EqDecision QualityLevel.
Proof. solve_decision. Defined.

(** The fields of [rtp.Packet] that [push] reads and writes. *)
Record Packet := mkPacket {
  Timestamp : Z;          (* uint32 *)
  SequenceNumber : Z      (* uint16 *)
}.

(** The fields of [SimulcastTrack] that [push] reads. *)
Record SimulcastTrack := mkSimulcastTrack {
  baseTS : Z;
  remoteTrackHighBaseTS : Z;
  remoteTrackMidBaseTS : Z;
  remoteTrackLowBaseTS : Z
}.

(** The mutable part of [SimulcastClientTrack]. *)
Record SimulcastClientTrack := mkSimulcastClientTrack {
  remoteTrack : SimulcastTrack;
  sequenceNumber : Z;     (* atomic.Uint32 *)
  lastQuality : QualityLevel;
  lastTimestamp : Z       (* atomic.Uint32 *)
}.

(** What one call of [push] reads from its collaborators: the state of the
    subscriber's peer connection, the verdict of [IsKeyframe] on the packet
    and the answer the bitrate controller would give to [GetQuality]. *)
Record PushEnv := mkPushEnv {
  connectionState : PeerConnectionState;
  isKeyframe : bool;
  controllerQuality : QualityLevel
}.

(** What [push] sends out. *)
Inductive Effect :=
| SendPLI (q : QualityLevel)
| WriteRTP (p : Packet).

Definition set_lastQuality (q : QualityLevel) (t : SimulcastClientTrack) :=
  mkSimulcastClientTrack (remoteTrack t) (sequenceNumber t) q (lastTimestamp t).

Definition set_lastTimestamp (ts : Z) (t : SimulcastClientTrack) :=
  mkSimulcastClientTrack (remoteTrack t) (sequenceNumber t) (lastQuality t) ts.

Definition set_sequenceNumber (n : Z) (t : SimulcastClientTrack) :=
  mkSimulcastClientTrack (remoteTrack t) n (lastQuality t) (lastTimestamp t).

(** The [switch quality] of [push], lines 138-145: the timestamp written
    into the packet.  No case matches [QualityNone]. *)
Definition rebaseTimestamp (rt : SimulcastTrack) (quality : QualityLevel) (ts : Z) : Z :=
  match quality with
  | QualityHigh =>
      add32 (baseTS rt) (sub32 (sub32 ts (remoteTrackHighBaseTS rt)) (remoteTrackHighBaseTS rt))
  | QualityMid =>
      add32 (baseTS rt) (sub32 (sub32 ts (remoteTrackMidBaseTS rt)) (remoteTrackMidBaseTS rt))
  | QualityLow =>
      add32 (baseTS rt) (sub32 (sub32 ts (remoteTrackLowBaseTS rt)) (remoteTrackLowBaseTS rt))
  | QualityNone => ts
  end.

(** The remote base timestamp of a layer, as the specification names it. *)
Definition remoteBaseTS (rt : SimulcastTrack) (quality : QualityLevel) : Z :=
  match quality with
  | QualityHigh => remoteTrackHighBaseTS rt
  | QualityMid => remoteTrackMidBaseTS rt
  | QualityLow => remoteTrackLowBaseTS rt
  | QualityNone => 0
  end.

(** [SimulcastClientTrack.push].  The result is the track after the call,
    the packet as the call leaves it (the packet is passed by pointer and
    rewritten in place) and the effects in the order they happen. *)
Definition push (env : PushEnv) (t : SimulcastClientTrack) (rtp : Packet)
    (quality : QualityLevel) : SimulcastClientTrack * Packet * list Effect :=
  let lastQ := lastQuality t in
  if negb (bool_decide (connectionState env = PeerConnectionStateConnected)) then
    (t, rtp, [])
  else if negb (isKeyframe env) && bool_decide (lastQ = QualityNone) then
    (* trackQuality still holds its zero value *)
    (t, rtp, [SendPLI QualityNone])
  else
    let newFrame := isKeyframe env && negb (lastTimestamp t =? Timestamp rtp) in
    if newFrame && bool_decide (controllerQuality env = QualityNone) then
      (set_lastQuality QualityNone t, rtp, [])
    else
      let trackQuality := if newFrame then controllerQuality env else lastQ in
      if bool_decide (trackQuality = quality) then
        let t1 := set_lastTimestamp (Timestamp rtp) t in
        let ts' := rebaseTimestamp (remoteTrack t) quality (Timestamp rtp) in
        let t2 := set_sequenceNumber (add32 (sequenceNumber t1) 1) t1 in
        let rtp' := mkPacket ts' (wrap16 (sequenceNumber t2)) in
        let t3 := if bool_decide (lastQ = quality) then t2 else set_lastQuality quality t2 in
        (t3, rtp', [WriteRTP rtp'])
      else
        (t, rtp, []).

(** One call of [push] as the reader loops issue it. *)
Record PushCall := mkPushCall {
  callEnv : PushEnv;
  callPacket : Packet;
  callQuality : QualityLevel
}.

(** A sequence of [push] calls on one track; the effects are concatenated
    in order. *)
Fixpoint pushAll (t : SimulcastClientTrack) (calls : list PushCall)
    : SimulcastClientTrack * list Effect :=
  match calls with
  | [] => (t, [])
  | c :: rest =>
      let '(t', _, eff) := push (callEnv c) t (callPacket c) (callQuality c) in
      let '(t'', eff') := pushAll t' rest in
      (t'', eff ++ eff')
  end.

(** The packets written by a list of effects, in order. *)
Definition written (effs : list Effect) : list Packet :=
  omap (fun e => match e with WriteRTP p => Some p | SendPLI _ => None end) effs.

Definition emittedSequenceNumbers (effs : list Effect) : list Z :=
  SequenceNumber <$> written effs.

Definition emittedTimestamps (effs : list Effect) : list Z :=
  Timestamp <$> written effs.

(** *** Bandwidth partitioning *)

(** The fields of [bitratesConfig] read by [getDistributedQuality]
    (all [uint32]); the declaration is not part of the three files. *)
Record BitratesConfig := mkBitratesConfig {
  Audio : Z;
  Video : Z;
  VideoHigh : Z;
  VideoMid : Z
}.

(** What [getDistributedQuality] asks of a track of another client. *)
Record RoomTrack := mkRoomTrack {
  Kind : RTPCodecType;
  IsSimulcast : bool
}.

(** What [getDistributedQuality] asks of a client of the room. *)
Record RoomClient := mkRoomClient {
  ID : string;
  tracks : list RoomTrack
}.

(** The three counters after the two nested loops, lines 246-266. *)
Record TrackCounts := mkTrackCounts {
  audioTracksCount : Z;
  videoTracksCount : Z;
  simulcastTracksCount : Z
}.

Definition countTrack (n : TrackCounts) (track : RoomTrack) : TrackCounts :=
  if bool_decide (Kind track = RTPCodecTypeAudio) then
    mkTrackCounts (audioTracksCount n + 1) (videoTracksCount n) (simulcastTracksCount n)
  else if IsSimulcast track then
    mkTrackCounts (audioTracksCount n) (videoTracksCount n) (simulcastTracksCount n + 1)
  else
    mkTrackCounts (audioTracksCount n) (videoTracksCount n + 1) (simulcastTracksCount n).

Definition countClient (self : string) (n : TrackCounts) (client : RoomClient) : TrackCounts :=
  if bool_decide (self ≠ ID client) then foldl countTrack n (tracks client) else n.

Definition countTracks (self : string) (clients : list RoomClient) : TrackCounts :=
  foldl (countClient self) (mkTrackCounts 0 0 0) clients.

(** Lines 272-278: the layer for a per-simulcast share. *)
Definition qualityOfShare (cfg : BitratesConfig) (distributedBandwidth : Z) : QualityLevel :=
  if VideoHigh cfg <? distributedBandwidth then QualityHigh
  else if (distributedBandwidth <? VideoHigh cfg) && (VideoMid cfg <? distributedBandwidth)
  then QualityMid
  else QualityLow.

(** [SimulcastClientTrack.getDistributedQuality]; [self] is the ID of the
    track's own client and [clients] the clients of the room.  [None] is
    Go's run-time panic on an integer division by zero. *)
Definition getDistributedQuality (cfg : BitratesConfig) (self : string)
    (clients : list RoomClient) (availableBandwidth : Z) : option QualityLevel :=
  let n := countTracks self clients in
  let leftBandwidth :=
    sub32 (sub32 availableBandwidth (mul32 (wrap32 (audioTracksCount n)) (Audio cfg)))
          (mul32 (wrap32 (videoTracksCount n)) (Video cfg)) in
  let divisor := wrap32 (simulcastTracksCount n) in
  if divisor =? 0 then None
  else Some (qualityOfShare cfg (leftBandwidth / divisor)).

End ClientTrack.

(** * Metadata change subscriptions *)

Module Meta.

Section Metadata.

(** Values stored in the map and the callbacks registered on it. *)
Context {Value Callback : Type}.

Record Metadata := mkMetadata {
  m : gmap string Value;
  onChangedCallbacks : list Callback
}.

(** The handle returned by [OnChanged].  Its [meta] pointer is the
    metadata object the operations below are applied to. *)
Record OnMetaChangedSubscription := mkSubscription {
  idx : nat
}.

(** One invocation of a callback: [f(key, value)]; [None] is [nil]. *)
Record Invocation := mkInvocation {
  callee : Callback;
  key : string;
  value : option Value
}.

Definition NewMetadata : Metadata := mkMetadata ∅ [].

(** [Metadata.onChanged]: every callback is called, in order. *)
Definition onChanged (md : Metadata) (k : string) (v : option Value) : list Invocation :=
  (fun f => mkInvocation f k v) <$> onChangedCallbacks md.

Definition Set_ (md : Metadata) (k : string) (v : Value) : Metadata * list Invocation :=
  let md' := mkMetadata (<[k := v]> (m md)) (onChangedCallbacks md) in
  (md', onChanged md' k (Some v)).

(** [None] is [ErrMetaNotFound]. *)
Definition Get (md : Metadata) (k : string) : option Value := m md !! k.

Definition Delete (md : Metadata) (k : string) : option (Metadata * list Invocation) :=
  match m md !! k with
  | None => None
  | Some _ =>
      let md' := mkMetadata (delete k (m md)) (onChangedCallbacks md) in
      Some (md', onChanged md' k None)
  end.

(** [Metadata.OnChanged]: the handle stores the position at which the
    callback was appended. *)
Definition OnChanged (md : Metadata) (f : Callback) : Metadata * OnMetaChangedSubscription :=
  let nextIdx := length (onChangedCallbacks md) in
  (mkMetadata (m md) (onChangedCallbacks md ++ [f]), mkSubscription nextIdx).

(** [OnMetaChangedSubscription.Unsubscribe]:
    [append(cbs[:idx], cbs[idx+1:]...)].  The slice expression
    [cbs[idx+1:]] panics when [idx+1] exceeds the length; [None] is that
    panic. *)
Definition Unsubscribe (s : OnMetaChangedSubscription) (md : Metadata) : option Metadata :=
  let cbs := onChangedCallbacks md in
  if decide (idx s + 1 ≤ length cbs)%nat then
    Some (mkMetadata (m md) (take (idx s) cbs ++ drop (idx s + 1) cbs))
  else None.

End Metadata.

Arguments Metadata : clear implicits.
Arguments Invocation : clear implicits.

End Meta.

(** * Client signaling and the room orchestrator *)

Module Room.

(** The identity of a [webrtc.TrackLocalStaticRTP]: what [StreamID()] and
    [ID()] return. *)
Record Track := mkTrack {
  trackStreamID : string;
  trackID : string
}.

Global Instance Track_eq_dec : EqDecision Track.
Proof. solve_decision. Defined.

(** The key of the published and pending maps: [streamID + "-" + trackID]. *)
Definition trackKey (streamID id : string) : string :=
  (streamID ++ "-" ++ id)%string.

(** The peer connection as the client code observes it.  A sender whose
    [Track()] is [nil] carries [None]. *)
Record PeerConnection := mkPeerConnection {
  connectionState : PeerConnectionState;
  iceConnectionState : ICEConnectionState;
  signalingState : SignalingState;
  senders : list (option Track)
}.

Definition set_signalingState (st : SignalingState) (pc : PeerConnection) :=
  mkPeerConnection (connectionState pc) (iceConnectionState pc) st (senders pc).

Definition set_senders (l : list (option Track)) (pc : PeerConnection) :=
  mkPeerConnection (connectionState pc) (iceConnectionState pc) (signalingState pc) l.

(** [PeerConnection.AddTrack]: a closed connection refuses the track
    ([None] is the error); otherwise a sender for it is appended. *)
Definition pcAddTrack (track : Track) (pc : PeerConnection) : option PeerConnection :=
  if bool_decide (connectionState pc = PeerConnectionStateClosed) then None
  else Some (set_senders (senders pc ++ [Some track]) pc).

(** The test of the loop in [removePublishedTrack], line 607. *)
Definition senderMatches (streamID id : string) (sender : option Track) : bool :=
  match sender with
  | Some track =>
      bool_decide (trackID track = id) && bool_decide (trackStreamID track = streamID)
  | None => false
  end.

(** [PeerConnection.RemoveTrack] stops the sender and leaves it without a
    track; its error is only logged. *)
Definition pcRemoveMatching (streamID id : string) (pc : PeerConnection) : PeerConnection :=
  set_senders
    ((fun sender => if senderMatches streamID id sender then None else sender) <$> senders pc)
    pc.

Inductive ClientState :=
| ClientStateNew | ClientStateActive | ClientStateRestart | ClientStateEnded.

Global Instance ClientState_eq_dec : EqDecision ClientState.
Proof. solve_decision. Defined.

(** What the client sends to its collaborators. *)
Inductive Event :=
| EvOnRenegotiation                 (* the blocking [OnRenegotiation] call *)
| EvOnAllowedRemoteRenegotiation    (* [go c.OnAllowedRemoteRenegotiation()] *)
| EvOnIceCandidate (candidate : string)
| EvRequestKeyFrame (clientID : string).

Global Instance Event_eq_dec : EqDecision Event.
Proof. solve_decision. Defined.

Record Client := mkClient {
  ID : string;
  State : ClientState;
  canAddCandidate : bool;
  initialTracksCount : Z;
  isInRenegotiation : bool;
  isInRemoteNegotiation : bool;
  pendingRemoteRenegotiation : bool;
  NegotiationNeeded : bool;
  peerConnection : PeerConnection;
  pendingReceivedTracks : gmap string Track;
  publishedTracks : gmap string Track;
  tracks : gmap string Track;
  (* whether the [OnAllowedRemoteRenegotiation] callback is set *)
  hasOnAllowedRemoteRenegotiation : bool;
  pendingRemoteCandidates : list string;
  pendingLocalCandidates : list string;
  (* everything sent out so far, oldest first *)
  events : list Event
}.

Definition set_canAddCandidate (b : bool) (c : Client) : Client :=
  mkClient (ID c) (State c) b (initialTracksCount c) (isInRenegotiation c)
    (isInRemoteNegotiation c) (pendingRemoteRenegotiation c) (NegotiationNeeded c)
    (peerConnection c) (pendingReceivedTracks c) (publishedTracks c) (tracks c)
    (hasOnAllowedRemoteRenegotiation c) (pendingRemoteCandidates c)
    (pendingLocalCandidates c) (events c).

Definition set_initialTracksCount (n : Z) (c : Client) : Client :=
  mkClient (ID c) (State c) (canAddCandidate c) n (isInRenegotiation c)
    (isInRemoteNegotiation c) (pendingRemoteRenegotiation c) (NegotiationNeeded c)
    (peerConnection c) (pendingReceivedTracks c) (publishedTracks c) (tracks c)
    (hasOnAllowedRemoteRenegotiation c) (pendingRemoteCandidates c)
    (pendingLocalCandidates c) (events c).

Definition set_isInRenegotiation (b : bool) (c : Client) : Client :=
  mkClient (ID c) (State c) (canAddCandidate c) (initialTracksCount c) b
    (isInRemoteNegotiation c) (pendingRemoteRenegotiation c) (NegotiationNeeded c)
    (peerConnection c) (pendingReceivedTracks c) (publishedTracks c) (tracks c)
    (hasOnAllowedRemoteRenegotiation c) (pendingRemoteCandidates c)
    (pendingLocalCandidates c) (events c).

Definition set_isInRemoteNegotiation (b : bool) (c : Client) : Client :=
  mkClient (ID c) (State c) (canAddCandidate c) (initialTracksCount c) (isInRenegotiation c)
    b (pendingRemoteRenegotiation c) (NegotiationNeeded c)
    (peerConnection c) (pendingReceivedTracks c) (publishedTracks c) (tracks c)
    (hasOnAllowedRemoteRenegotiation c) (pendingRemoteCandidates c)
    (pendingLocalCandidates c) (events c).

Definition set_pendingRemoteRenegotiation (b : bool) (c : Client) : Client :=
  mkClient (ID c) (State c) (canAddCandidate c) (initialTracksCount c) (isInRenegotiation c)
    (isInRemoteNegotiation c) b (NegotiationNeeded c)
    (peerConnection c) (pendingReceivedTracks c) (publishedTracks c) (tracks c)
    (hasOnAllowedRemoteRenegotiation c) (pendingRemoteCandidates c)
    (pendingLocalCandidates c) (events c).

Definition set_NegotiationNeeded (b : bool) (c : Client) : Client :=
  mkClient (ID c) (State c) (canAddCandidate c) (initialTracksCount c) (isInRenegotiation c)
    (isInRemoteNegotiation c) (pendingRemoteRenegotiation c) b
    (peerConnection c) (pendingReceivedTracks c) (publishedTracks c) (tracks c)
    (hasOnAllowedRemoteRenegotiation c) (pendingRemoteCandidates c)
    (pendingLocalCandidates c) (events c).

Definition set_peerConnection (pc : PeerConnection) (c : Client) : Client :=
  mkClient (ID c) (State c) (canAddCandidate c) (initialTracksCount c) (isInRenegotiation c)
    (isInRemoteNegotiation c) (pendingRemoteRenegotiation c) (NegotiationNeeded c)
    pc (pendingReceivedTracks c) (publishedTracks c) (tracks c)
    (hasOnAllowedRemoteRenegotiation c) (pendingRemoteCandidates c)
    (pendingLocalCandidates c) (events c).

Definition set_pendingReceivedTracks (ts : gmap string Track) (c : Client) : Client :=
  mkClient (ID c) (State c) (canAddCandidate c) (initialTracksCount c) (isInRenegotiation c)
    (isInRemoteNegotiation c) (pendingRemoteRenegotiation c) (NegotiationNeeded c)
    (peerConnection c) ts (publishedTracks c) (tracks c)
    (hasOnAllowedRemoteRenegotiation c) (pendingRemoteCandidates c)
    (pendingLocalCandidates c) (events c).

Definition set_publishedTracks (ts : gmap string Track) (c : Client) : Client :=
  mkClient (ID c) (State c) (canAddCandidate c) (initialTracksCount c) (isInRenegotiation c)
    (isInRemoteNegotiation c) (pendingRemoteRenegotiation c) (NegotiationNeeded c)
    (peerConnection c) (pendingReceivedTracks c) ts (tracks c)
    (hasOnAllowedRemoteRenegotiation c) (pendingRemoteCandidates c)
    (pendingLocalCandidates c) (events c).

Definition set_tracks (ts : gmap string Track) (c : Client) : Client :=
  mkClient (ID c) (State c) (canAddCandidate c) (initialTracksCount c) (isInRenegotiation c)
    (isInRemoteNegotiation c) (pendingRemoteRenegotiation c) (NegotiationNeeded c)
    (peerConnection c) (pendingReceivedTracks c) (publishedTracks c) ts
    (hasOnAllowedRemoteRenegotiation c) (pendingRemoteCandidates c)
    (pendingLocalCandidates c) (events c).

Definition set_pendingRemoteCandidates (l : list string) (c : Client) : Client :=
  mkClient (ID c) (State c) (canAddCandidate c) (initialTracksCount c) (isInRenegotiation c)
    (isInRemoteNegotiation c) (pendingRemoteRenegotiation c) (NegotiationNeeded c)
    (peerConnection c) (pendingReceivedTracks c) (publishedTracks c) (tracks c)
    (hasOnAllowedRemoteRenegotiation c) l
    (pendingLocalCandidates c) (events c).

Definition set_pendingLocalCandidates (l : list string) (c : Client) : Client :=
  mkClient (ID c) (State c) (canAddCandidate c) (initialTracksCount c) (isInRenegotiation c)
    (isInRemoteNegotiation c) (pendingRemoteRenegotiation c) (NegotiationNeeded c)
    (peerConnection c) (pendingReceivedTracks c) (publishedTracks c) (tracks c)
    (hasOnAllowedRemoteRenegotiation c) (pendingRemoteCandidates c)
    l (events c).

Definition emit (evs : list Event) (c : Client) : Client :=
  mkClient (ID c) (State c) (canAddCandidate c) (initialTracksCount c) (isInRenegotiation c)
    (isInRemoteNegotiation c) (pendingRemoteRenegotiation c) (NegotiationNeeded c)
    (peerConnection c) (pendingReceivedTracks c) (publishedTracks c) (tracks c)
    (hasOnAllowedRemoteRenegotiation c) (pendingRemoteCandidates c)
    (pendingLocalCandidates c) (events c ++ evs).

(** The signaling state after a description has been applied with success:
    a local offer leaves the connection in have-local-offer, a remote offer
    in have-remote-offer, an answer brings it back to stable. *)
Definition set_pcSignaling (st : SignalingState) (c : Client) : Client :=
  set_peerConnection (set_signalingState st (peerConnection c)) c.

(** ** The signaling operations *)

(** [Client.IsAllowNegotiation]. *)
Definition IsAllowNegotiation (c : Client) : Client * bool :=
  if isInRenegotiation c then (set_pendingRemoteRenegotiation true c, false)
  else (set_isInRemoteNegotiation true c, true).

(** What [negotiateQueuOp] gets back from the peer connection. *)
Record NegotiateEnv := mkNegotiateEnv {
  setRemoteDescriptionOk : bool;
  createAnswerOk : bool;
  setLocalDescriptionOk : bool;
  addICECandidateOk : bool;
  transceiversBefore : Z;
  transceiversAfter : Z
}.

Inductive NegotiateResult :=
| NegotiateAnswer     (* the local description is returned *)
| NegotiateError      (* [return nil, err] *)
| NegotiatePanic.     (* [panic(err)] while adding a pending candidate *)

(** [Client.sendPendingLocalCandidates]. *)
Definition sendPendingLocalCandidates (c : Client) : Client :=
  set_pendingLocalCandidates [] (emit (EvOnIceCandidate <$> pendingLocalCandidates c) c).

(** [Client.negotiateQueuOp]. *)
Definition negotiateQueuOp (env : NegotiateEnv) (c : Client) : Client * NegotiateResult :=
  let c := set_isInRemoteNegotiation true c in
  if negb (setRemoteDescriptionOk env) then (c, NegotiateError) else
  let c := set_pcSignaling SignalingStateHaveRemoteOffer c in
  if negb (createAnswerOk env) then (c, NegotiateError) else
  if negb (setLocalDescriptionOk env) then (c, NegotiateError) else
  let c := set_pcSignaling SignalingStateStable c in
  let c := set_canAddCandidate true c in
  if negb (addICECandidateOk env) && negb (bool_decide (pendingRemoteCandidates c = []))
  then (c, NegotiatePanic) else
  let c := set_initialTracksCount (transceiversAfter env - transceiversBefore env) c in
  let c := sendPendingLocalCandidates c in
  let c := set_pendingRemoteCandidates [] c in
  let c := set_isInRemoteNegotiation false c in
  (c, NegotiateAnswer).

(** How one round of the renegotiation loop ends. *)
Inductive RenegotiateOutcome :=
| CreateOfferFails
| SetLocalDescriptionFails
| OnRenegotiationFails
| AnswerIsNotAnAnswer
| SetRemoteDescriptionFails
| AnswerApplied.

(** What one round of the loop meets: its outcome, and how many times the
    signaling layer calls [IsAllowNegotiation] while the round is blocked
    in [OnRenegotiation]. *)
Record RenegotiateEnv := mkRenegotiateEnv {
  outcome : RenegotiateOutcome;
  remoteRequests : nat
}.

(** The guard of the loop body, lines 491-493. *)
Definition canRenegotiate (c : Client) : bool :=
  negb (bool_decide (State c = ClientStateEnded))
  && bool_decide (signalingState (peerConnection c) = SignalingStateStable)
  && bool_decide (connectionState (peerConnection c) = PeerConnectionStateConnected).

(** The guarded part of the loop body, lines 494-523.  The boolean tells
    whether the body left the function through one of its [return]s. *)
Definition renegotiateRound (env : RenegotiateEnv) (c : Client) : Client * bool :=
  match outcome env with
  | CreateOfferFails => (c, true)
  | SetLocalDescriptionFails => (c, true)
  | o =>
      let c := set_pcSignaling SignalingStateHaveLocalOffer c in
      let c := emit [EvOnRenegotiation] c in
      let c := Nat.iter (remoteRequests env) (fun c => fst (IsAllowNegotiation c)) c in
      match o with
      | AnswerApplied => (set_pcSignaling SignalingStateStable c, false)
      | _ => (c, true)
      end
  end.

(** The loop [for c.NegotiationNeeded { ... }], one environment per round.
    [None]: the rounds provided did not suffice. *)
Fixpoint renegotiateLoop (envs : list RenegotiateEnv) (c : Client) : option (Client * bool) :=
  if NegotiationNeeded c then
    match envs with
    | [] => None
    | env :: rest =>
        let c := set_NegotiationNeeded false c in
        if canRenegotiate c then
          let '(c', returned) := renegotiateRound env c in
          if returned then Some (c', true) else renegotiateLoop rest c'
        else renegotiateLoop rest c
    end
  else Some (c, false).

(** [Client.renegotiateQueuOp]. *)
Definition renegotiateQueuOp (envs : list RenegotiateEnv) (c : Client) : option Client :=
  let c := set_NegotiationNeeded true c in
  if isInRemoteNegotiation c then Some c
  else if isInRenegotiation c then Some c
  else
    let c := set_isInRenegotiation true c in
    match renegotiateLoop envs c with
    | None => None
    | Some (c', true) => Some c'
    | Some (c', false) => Some (set_isInRenegotiation false c')
    end.

(** [Client.allowRemoteRenegotiationQueuOp]. *)
Definition allowRemoteRenegotiationQueuOp (c : Client) : Client :=
  if hasOnAllowedRemoteRenegotiation c then
    emit [EvOnAllowedRemoteRenegotiation] (set_isInRemoteNegotiation true c)
  else c.

(** A signaling operation applied to a client, and a change of the peer
    connection made by the stack between two operations. *)
Inductive SignalingOp :=
| OpIsAllowNegotiation
| OpNegotiate (env : NegotiateEnv)
| OpRenegotiate (envs : list RenegotiateEnv)
| OpAllowRemoteRenegotiation
| OpStack (pc : PeerConnection).

Definition runOp (op : SignalingOp) (c : Client) : option Client :=
  match op with
  | OpIsAllowNegotiation => Some (fst (IsAllowNegotiation c))
  | OpNegotiate env => Some (fst (negotiateQueuOp env c))
  | OpRenegotiate envs => renegotiateQueuOp envs c
  | OpAllowRemoteRenegotiation => Some (allowRemoteRenegotiationQueuOp c)
  | OpStack pc => Some (set_peerConnection pc c)
  end.

(** The states a client goes through under a sequence of operations: the
    state after each operation, in order. *)
Fixpoint runOps (ops : list SignalingOp) (c : Client) : option (list Client) :=
  match ops with
  | [] => Some []
  | op :: rest =>
      match runOp op c with
      | None => None
      | Some c' =>
          match runOps rest c' with
          | None => None
          | Some l => Some (c' :: l)
          end
      end
  end.

(** The property of the two flags. *)
Definition bothNegotiating (c : Client) : bool :=
  isInRenegotiation c && isInRemoteNegotiation c.

(** ** Tracks of a client *)

(** [Client.setClientTrack]. *)
Definition setClientTrack (track : Track) (c : Client) : Client * bool :=
  let id := trackKey (trackStreamID track) (trackID track) in
  match publishedTracks c !! id with
  | Some _ => (c, false)
  | None =>
      let c := set_publishedTracks (<[id := track]> (publishedTracks c)) c in
      match pcAddTrack track (peerConnection c) with
      | None => (c, false)
      | Some pc => (set_peerConnection pc c, true)
      end
  end.

(** [Client.addTrack]. *)
Definition addTrack (track : Track) (c : Client) : Client * bool :=
  if negb (bool_decide (iceConnectionState (peerConnection c) = ICEConnectionStateConnected))
  then
    (set_pendingReceivedTracks
       (<[trackKey (trackStreamID track) (trackID track) := track]> (pendingReceivedTracks c)) c,
     false)
  else setClientTrack track c.

(** [Client.removeTrack]. *)
Definition removeTrack (id : string) (c : Client) : Client :=
  set_tracks (delete id (tracks c)) c.

(** [Client.removePublishedTrack]. *)
Definition removePublishedTrack (streamID id : string) (c : Client) : Client * bool :=
  let k := trackKey streamID id in
  let removed := bool_decide (is_Some (publishedTracks c !! k)) in
  let c := if removed then set_publishedTracks (delete k (publishedTracks c)) c else c in
  if bool_decide (connectionState (peerConnection c) = PeerConnectionStateClosed) then
    (c, false)
  else
    (set_peerConnection (pcRemoveMatching streamID id (peerConnection c)) c, removed).

Record PublishedTrack := mkPublishedTrack {
  ClientID : string;
  publishedTrack : Track
}.

(** [Client.GetCurrentTracks]. *)
Definition GetCurrentTracks (c : Client) : gmap string PublishedTrack :=
  if bool_decide (connectionState (peerConnection c) = PeerConnectionStateClosed)
     || bool_decide (connectionState (peerConnection c) = PeerConnectionStateFailed)
  then ∅
  else
    map_fold
      (fun _ track currentTracks =>
         <[trackKey (trackStreamID track) (trackID track) := mkPublishedTrack (ID c) track]>
           currentTracks)
      ∅ (publishedTracks c).

(** ** The room *)

(** The registry [map[string]*Client], as a [range] over it goes through
    it. *)
Record SFU := mkSFU {
  clients : list Client
}.

(** [SFU.removeTrack]; the clients come back as the calls left them. *)
Definition removeTrackStep (streamID id : string) (acc : list Client * bool) (client : Client)
    : list Client * bool :=
  let '(c', r) := removePublishedTrack streamID id client in
  (acc.1 ++ [c'], r).

Definition SFU_removeTrack (streamID id : string) (s : SFU) : SFU * bool :=
  let '(cs, trackRemoved) := foldl (removeTrackStep streamID id) ([], false) (clients s) in
  (mkSFU cs, trackRemoved).

(** [SFU.requestKeyFrameFromClient]. *)
Definition requestKeyFrameFromClient (s : SFU) (clientID : string) : list Event :=
  if bool_decide (Exists (fun c => ID c = clientID) (clients s))
  then [EvRequestKeyFrame clientID] else [].

(** The body of the inner loop of [SyncTrack], lines 418-427.  The state
    carried through the loops is the client being synchronised, the
    [needRenegotiation] flag and the key-frame requests sent. *)
Definition syncTrackStep (s : SFU) (currentTracks : gmap string PublishedTrack)
    (peerID : string) (acc : Client * bool * list Event) (track : Track)
    : Client * bool * list Event :=
  let '(client, needRenegotiation, evs) := acc in
  if bool_decide (ID client ≠ peerID) then
    match currentTracks !! trackKey (trackStreamID track) (trackID track) with
    | None =>
        ((addTrack track client).1, true, evs ++ requestKeyFrameFromClient s peerID)
    | Some _ => acc
    end
  else acc.

Definition syncPeer (s : SFU) (currentTracks : gmap string PublishedTrack)
    (acc : Client * bool * list Event) (clientPeer : Client) : Client * bool * list Event :=
  foldl (syncTrackStep s currentTracks (ID clientPeer)) acc
        ((map_to_list (tracks clientPeer)).*2).

(** [SFU.SyncTrack]. *)
Definition SyncTrack (s : SFU) (client : Client) : Client * bool * list Event :=
  let currentTracks := GetCurrentTracks client in
  foldl (syncPeer s currentTracks) (client, false, []) (clients s).

End Room.

(** * The properties as the specification states them *)

Module Stated.

Import ClientTrack.

(** The timestamp rebasing as the specification words it: subtract the
    layer's remote base from the packet timestamp, then add the
    subscriber-visible base. *)
Definition rebaseTimestamp_spec (rt : SimulcastTrack) (quality : QualityLevel) (ts : Z) : Z :=
  add32 (baseTS rt) (sub32 ts (remoteBaseTS rt quality)).

(** Sequence numbers that go up by exactly one from each packet to the
    next. *)
Definition stepsByOne (l : list Z) : Prop :=
  forall (i : nat) (a b : Z), l !! i = Some a -> l !! S i = Some b -> b = a + 1.

End Stated.

(** * Concrete inputs used by the examples below *)

Module Inputs.

Import ClientTrack.

(** A simulcast source whose high layer started at timestamp 1000 and which
    the subscriber sees from timestamp 5000 on. *)
Definition rebaseSource : SimulcastTrack := mkSimulcastTrack 5000 1000 0 0.

Definition rebaseTrack : SimulcastClientTrack :=
  mkSimulcastClientTrack rebaseSource 0 QualityHigh 0.

(** A connected subscriber and a packet that is not a key frame. *)
Definition deltaFrame : PushEnv :=
  mkPushEnv PeerConnectionStateConnected false QualityHigh.

Definition rebasePacket : Packet := mkPacket 3000 17.

(** A track that has already written 65534 packets. *)
Definition wrappingTrack : SimulcastClientTrack :=
  mkSimulcastClientTrack (mkSimulcastTrack 0 0 0 0) 65534 QualityHigh 0.

Definition wrappingCalls : list PushCall :=
  [ mkPushCall deltaFrame (mkPacket 10 0) QualityHigh;
    mkPushCall deltaFrame (mkPacket 20 1) QualityHigh ].

(** Thresholds of 1000 (high) and 500 (mid), and a room whose only other
    client publishes one simulcast video track. *)
Definition thresholds : BitratesConfig := mkBitratesConfig 48 300 1000 500.

Definition oneSimulcastRoom : list RoomClient :=
  [ mkRoomClient "subscriber" [];
    mkRoomClient "publisher" [mkRoomTrack RTPCodecTypeVideo true] ].

(** A room whose only other client publishes audio alone. *)
Definition audioOnlyRoom : list RoomClient :=
  [ mkRoomClient "subscriber" [];
    mkRoomClient "publisher" [mkRoomTrack RTPCodecTypeAudio false] ].

End Inputs.

Module MetaInputs.

Import Meta.

(** A metadata object on which two callbacks, named by strings, have been
    registered one after the other, and the two handles. *)
Definition fresh : Metadata Z string := NewMetadata.

Definition afterFirst : Metadata Z string := (OnChanged fresh "first").1.
Definition firstHandle : OnMetaChangedSubscription := (OnChanged fresh "first").2.

Definition afterSecond : Metadata Z string := (OnChanged afterFirst "second").1.
Definition secondHandle : OnMetaChangedSubscription := (OnChanged afterFirst "second").2.

End MetaInputs.

Module RoomStated.

Import Room.

(** Whether a call took anything away from the published map or from the
    senders of the peer connection. *)
Definition removedAnything (c c' : Client) : Prop :=
  publishedTracks c' <> publishedTracks c
  \/ senders (peerConnection c') <> senders (peerConnection c).

(** [removePublishedTrack] as the specification states it: afterwards the
    entry is gone from the published map, no sender carries the track any
    more, and the result tells whether anything was removed. *)
Definition removePublishedTrack_stated (streamID id : string) (c : Client) : Prop :=
  let r := removePublishedTrack streamID id c in
  publishedTracks r.1 !! trackKey streamID id = None
  /\ Forall (fun sender => senderMatches streamID id sender = false)
            (senders (peerConnection r.1))
  /\ (r.2 = true <-> removedAnything c r.1).

(** A client from which [removePublishedTrack] would report a removal. *)
Definition reportsRemoval (streamID id : string) (c : Client) : Prop :=
  (removePublishedTrack streamID id c).2 = true.

(** [SFU.removeTrack] as the specification states it: the result is the
    disjunction over all clients of the registry. *)
Definition SFU_removeTrack_stated (streamID id : string) (s : SFU) : Prop :=
  (SFU_removeTrack streamID id s).2 = true
  <-> Exists (reportsRemoval streamID id) (clients s).

(** A round of the renegotiation loop that runs to its end. *)
Definition roundCompletes (env : RenegotiateEnv) : Prop := outcome env = AnswerApplied.

(** An operation none of whose renegotiation rounds is cut short. *)
Definition opCompletes (op : SignalingOp) : Prop :=
  match op with
  | OpRenegotiate envs => Forall roundCompletes envs
  | _ => True
  end.

(** The key-frame requests [SyncTrack] sends when every track of every
    other client is handed over: one per track, publisher by publisher. *)
Definition requestsForAll (self : string) (peers : list Client) : list Event :=
  peers ≫= (fun peer =>
    if bool_decide (self ≠ ID peer)
    then replicate (size (tracks peer)) (EvRequestKeyFrame (ID peer)) else []).

(** Some other client has a track. *)
Definition otherHasTrack (self : string) (peers : list Client) : Prop :=
  Exists (fun peer => self ≠ ID peer /\ tracks peer ≠ ∅) peers.

End RoomStated.

Module RoomInputs.

Import Room.

Definition cameraTrack : Track := mkTrack "s" "t".

Definition connectedPC (l : list (option Track)) : PeerConnection :=
  mkPeerConnection PeerConnectionStateConnected ICEConnectionStateConnected
    SignalingStateStable l.

Definition closedPC (l : list (option Track)) : PeerConnection :=
  mkPeerConnection PeerConnectionStateClosed ICEConnectionStateClosed
    SignalingStateClosed l.

(** An active, connected client with nothing in flight; its signaling
    layer has set the [OnAllowedRemoteRenegotiation] callback. *)
Definition idleClient (id : string) (pc : PeerConnection)
    (published : gmap string Track) (own : gmap string Track) : Client :=
  mkClient id ClientStateActive false 0 false false false false pc
    ∅ published own true [] [] [].

Definition alice : Client := idleClient "alice" (connectedPC []) ∅ ∅.

(** A renegotiation whose offer cannot be created, followed by the
    permission for the remote side. *)
Definition failedOfferThenAllow : list SignalingOp :=
  [ OpRenegotiate [mkRenegotiateEnv CreateOfferFails 0];
    OpAllowRemoteRenegotiation ].

(** The same renegotiation followed by a remote offer that the peer
    connection rejects. *)
Definition rejectedOffer : NegotiateEnv := mkNegotiateEnv false true true true 0 0.

Definition failedOfferThenNegotiate : list SignalingOp :=
  [ OpRenegotiate [mkRenegotiateEnv CreateOfferFails 0];
    OpNegotiate rejectedOffer ].

(** A round of local renegotiation during which the remote side asks once
    for permission, and which then completes. *)
Definition raceRound : RenegotiateEnv := mkRenegotiateEnv AnswerApplied 1.

(** A subscriber that receives the camera track and one that does not. *)
Definition holder : Client :=
  idleClient "holder" (connectedPC [Some cameraTrack]) {[ "s-t" := cameraTrack ]} ∅.

Definition bystander : Client := idleClient "bystander" (connectedPC []) ∅ ∅.

Definition holderFirst : SFU := mkSFU [holder; bystander].
Definition holderLast : SFU := mkSFU [bystander; holder].

(** A subscriber of the camera track whose peer connection is closed. *)
Definition closedHolder : Client :=
  idleClient "holder" (closedPC [Some cameraTrack]) {[ "s-t" := cameraTrack ]} ∅.

(** The publisher of the camera track, and the room of the publisher and
    the closed subscriber. *)
Definition publisher : Client :=
  idleClient "publisher" (connectedPC []) ∅ {[ "t" := cameraTrack ]}.

Definition closedRoom : SFU := mkSFU [closedHolder; publisher].

End RoomInputs.

(** * Further functions of the three files *)

(** ** Track-ended callbacks ([clienttrack.go]) *)

Module TrackEnded.

Section Callbacks.

Context {Callback : Type}.

(** The fields of [SimulcastClientTrack] that the track-ended functions
    use. *)
Record EndState := mkEndState {
  isEnded : bool;
  onTrackEndedCallbacks : list Callback
}.

(** [SimulcastClientTrack.OnTrackEnded]. *)
Definition OnTrackEnded (callback : Callback) (t : EndState) : EndState :=
  mkEndState (isEnded t) (onTrackEndedCallbacks t ++ [callback]).

(** [SimulcastClientTrack.onTrackEnded]. *)
Definition onTrackEnded (t : EndState) : EndState * list Callback :=
  if isEnded t then (t, [])
  else (mkEndState true (onTrackEndedCallbacks t), onTrackEndedCallbacks t).

(** What happens to a simulcast client track: a callback is registered, or
    one of the layers ends. *)
Inductive EndOp :=
| Register (callback : Callback)
| LayerEnds.

Fixpoint runEndOps (ops : list EndOp) (t : EndState) : EndState * list Callback :=
  match ops with
  | [] => (t, [])
  | Register f :: rest => runEndOps rest (OnTrackEnded f t)
  | LayerEnds :: rest =>
      let '(t', called) := onTrackEnded t in
      let '(t'', called') := runEndOps rest t' in
      (t'', called ++ called')
  end.

(** The callbacks registered before the first end of a layer; [None] when
    no layer ends. *)
Fixpoint registeredBeforeEnd (ops : list EndOp) : option (list Callback) :=
  match ops with
  | [] => None
  | LayerEnds :: _ => Some []
  | Register f :: rest => cons f <$> registeredBeforeEnd rest
  end.

End Callbacks.

Arguments EndState : clear implicits.
Arguments EndOp : clear implicits.

End TrackEnded.

(** ** The list of client tracks ([clienttrack.go]) *)

Module TrackList.

Section ClientTrackList.

(** The tracks of the list and their [ID()]. *)
Context {T : Type} (ID : T -> string).

(** [clientTrackList.Add]. *)
Definition Add (track : T) (tracks : list T) : list T := tracks ++ [track].

(** [clientTrackList.Remove]: the first track with the ID is cut out and
    the loop stops. *)
Fixpoint Remove (id : string) (tracks : list T) : list T :=
  match tracks with
  | [] => []
  | track :: rest =>
      if bool_decide (ID track = id) then rest else track :: Remove id rest
  end.

(** [clientTrackList.Get]; [None] is the nil interface. *)
Fixpoint Get (id : string) (tracks : list T) : option T :=
  match tracks with
  | [] => None
  | t :: rest => if bool_decide (ID t = id) then Some t else Get id rest
  end.

(** [clientTrackList.Length]. *)
Definition Length (tracks : list T) : nat := length tracks.

End ClientTrackList.

End TrackList.

(** ** Pending tracks and publication *)

Module RoomOps.

Import Room.

(** [Client.processPendingTracks]. *)
Definition processPendingStep (acc : Client * bool) (track : Track) : Client * bool :=
  setClientTrack track acc.1.

Definition processPendingTracks (c : Client) : Client * bool :=
  let r := foldl processPendingStep (c, false) ((map_to_list (pendingReceivedTracks c)).*2) in
  (set_pendingReceivedTracks ∅ r.1, r.2).

(** The inner loop of [SFU.broadcastTracks], lines 388-392. *)
Definition broadcastStep (acc : Client * bool) (track : PublishedTrack) : Client * bool :=
  if bool_decide (ID acc.1 ≠ ClientID track) then addTrack (publishedTrack track) acc.1
  else acc.

Definition broadcastTo (tracks : list PublishedTrack) (client : Client) : Client * bool :=
  foldl broadcastStep (client, false) tracks.

(** [SFU.broadcastTracks]: the registry afterwards, and the clients for
    which [go client.renegotiate()] was started, in order. *)
Definition broadcastClientStep (tracks : list PublishedTrack)
    (acc : list Client * list string) (client : Client) : list Client * list string :=
  let '(client', renegotiate) := broadcastTo tracks client in
  (acc.1 ++ [client'], if renegotiate then acc.2 ++ [ID client'] else acc.2).

Definition broadcastTracks (tracks : list PublishedTrack) (s : SFU) : SFU * list string :=
  let '(cs, renegotiated) := foldl (broadcastClientStep tracks) ([], []) (clients s) in
  (mkSFU cs, renegotiated).

(** [SFU.publishTracks] up to the [onTrackPublished] callbacks: the
    registry afterwards, the renegotiations started and the key-frame
    requests sent. *)
Definition publishTracks (clientID : string) (tracks : gmap string Track) (s : SFU)
    : SFU * list string * list Event :=
  let pendingTracks := mkPublishedTrack clientID <$> (map_to_list tracks).*2 in
  let '(s', renegotiated) := broadcastTracks pendingTracks s in
  (s', renegotiated, (fun client => EvRequestKeyFrame (ID client)) <$> clients s').

(** A map of tracks in which every track sits under the key made of its
    own stream ID and track ID. *)
Definition wellKeyed (tracks : gmap string Track) : Prop :=
  forall (k : string) (track : Track),
    tracks !! k = Some track -> k = trackKey (trackStreamID track) (trackID track).

(** A track is known to a client: published to it or waiting for its
    connection. *)
Definition knownTo (c : Client) (track : Track) : Prop :=
  is_Some (publishedTracks c !! trackKey (trackStreamID track) (trackID track))
  \/ is_Some (pendingReceivedTracks c !! trackKey (trackStreamID track) (trackID track)).

(** A client of the room other than [c] has a track that is not among the
    current tracks of [c]. *)
Definition missesTrack (c : Client) (peers : list Client) : Prop :=
  Exists (fun peer =>
            ID c ≠ ID peer
            /\ exists (k : string) (track : Track),
                 tracks peer !! k = Some track
                 /\ GetCurrentTracks c
                      !! trackKey (trackStreamID track) (trackID track) = None)
         peers.

End RoomOps.

Module MoreStated.

Import ClientTrack.

(** The number of PLI requests among the effects. *)
Definition isPLI (e : Effect) : bool :=
  match e with SendPLI _ => true | WriteRTP _ => false end.

Definition requestedPLIs (effs : list Effect) : nat := length (List.filter isPLI effs).

(** The calls made while the subscriber is connected. *)
Definition isConnectedCall (c : PushCall) : bool :=
  bool_decide (connectionState (callEnv c) = PeerConnectionStateConnected).

Definition connectedCalls (calls : list PushCall) : nat :=
  length (List.filter isConnectedCall calls).

(** The tracks of the clients other than [self]. *)
Definition othersTracks (self : string) (clients : list RoomClient) : list RoomTrack :=
  clients ≫= (fun client => if bool_decide (self ≠ ID client) then tracks client else []).

(** What the other clients' audio and plain video tracks cost. *)
Definition fixedCost (cfg : BitratesConfig) (n : TrackCounts) : Z :=
  audioTracksCount n * Audio cfg + videoTracksCount n * Video cfg.

(** The number of tracks counted, and counters that are not negative. *)
Definition totalCount (n : TrackCounts) : Z :=
  audioTracksCount n + videoTracksCount n + simulcastTracksCount n.

Definition countsNonNegative (n : TrackCounts) : Prop :=
  0 <= audioTracksCount n /\ 0 <= videoTracksCount n /\ 0 <= simulcastTracksCount n.

End MoreStated.

Module MoreInputs.

Import ClientTrack Room.

(** A key frame of the mid layer that starts a new frame, when the
    controller asks for the mid layer. *)
Definition midKeyframe : PushEnv :=
  mkPushEnv PeerConnectionStateConnected true QualityMid.

Definition highTrack : SimulcastClientTrack :=
  mkSimulcastClientTrack (mkSimulcastTrack 0 0 0 0) 7 QualityHigh 0.

Definition midPacket : Packet := mkPacket 90 3.

(** A room with one audio track and one simulcast track of other clients,
    and an audio budget of 48. *)
Definition mixedRoom : list RoomClient :=
  [ mkRoomClient "subscriber" [mkRoomTrack RTPCodecTypeVideo true];
    mkRoomClient "speaker" [mkRoomTrack RTPCodecTypeAudio false];
    mkRoomClient "publisher" [mkRoomTrack RTPCodecTypeVideo true] ].

Definition budgets : BitratesConfig := mkBitratesConfig 48 300 1000 500.

(** A connected client that has not been offered anything, a track, and a
    client whose ICE connection is still being checked. *)
Definition screenTrack : Track := mkTrack "screen" "v1".

Definition connectedClient : Client :=
  mkClient "carol" ClientStateActive false 0 false false false false
    (mkPeerConnection PeerConnectionStateConnected ICEConnectionStateConnected
       SignalingStateStable [])
    ∅ ∅ ∅ true [] ["candidate-1"; "candidate-2"] [].

Definition checkingClient : Client :=
  mkClient "dave" ClientStateActive false 0 false false false false
    (mkPeerConnection PeerConnectionStateConnecting ICEConnectionStateChecking
       SignalingStateStable [])
    ∅ ∅ ∅ true [] [] [].

(** A subscriber of the screen track. *)
Definition screenSubscriber : Client :=
  mkClient "erin" ClientStateActive false 0 false false false false
    (mkPeerConnection PeerConnectionStateConnected ICEConnectionStateConnected
       SignalingStateStable [Some screenTrack])
    ∅ {[ "screen-v1" := screenTrack ]} ∅ true [] [] [].

Definition goodRound : RenegotiateEnv := mkRenegotiateEnv AnswerApplied 0.

End MoreInputs.

(** * Properties of the simulcast client track *)

Module ClientTrackProofs.

Import ClientTrack Stated Inputs.

Lemma wrap16_wrap32_add a b : wrap16 (wrap32 a + b) = wrap16 (a + b).
Proof.
  unfold wrap16, wrap32.
  rewrite Z.add_mod by lia.
  rewrite (Z.mod_mod_divide a (2 ^ 32) (2 ^ 16)).
  - rewrite <- Z.add_mod by lia. reflexivity.
  - exists (2 ^ 16). reflexivity.
Qed.

Lemma wrap16_wrap32 a : wrap16 (wrap32 a) = wrap16 a.
Proof. rewrite <- (Z.add_0_r (wrap32 a)), wrap16_wrap32_add. f_equal. lia. Qed.

Lemma wrap32_add_l a b : wrap32 (wrap32 a + b) = wrap32 (a + b).
Proof. unfold wrap32. rewrite Zplus_mod_idemp_l. reflexivity. Qed.

Lemma wrap32_add_r a b : wrap32 (a + wrap32 b) = wrap32 (a + b).
Proof. unfold wrap32. rewrite Zplus_mod_idemp_r. reflexivity. Qed.

(** What the code computes for a layer: the remote base is taken off
    twice. *)
Lemma rebaseTimestamp_closed_form rt q ts :
  q <> QualityNone ->
  rebaseTimestamp rt q ts = wrap32 (baseTS rt + ts - 2 * remoteBaseTS rt q).
Proof.
  intros Hq.
  assert (E : forall b r, add32 b (sub32 (sub32 ts r) r) = wrap32 (b + ts - 2 * r)).
  { intros b r. unfold add32, sub32. rewrite wrap32_add_r.
    replace (b + (wrap32 (ts - r) - r)) with (wrap32 (ts - r) + (b - r)) by lia.
    rewrite wrap32_add_l. f_equal. lia. }
  destruct q; try congruence; cbn [rebaseTimestamp remoteBaseTS]; apply E.
Qed.

Lemma rebaseTimestamp_spec_closed_form rt q ts :
  rebaseTimestamp_spec rt q ts = wrap32 (baseTS rt + ts - remoteBaseTS rt q).
Proof.
  unfold rebaseTimestamp_spec, add32, sub32. rewrite wrap32_add_r. f_equal. lia.
Qed.

(** The code and the specification's formula agree on a layer exactly when
    that layer's remote base is zero modulo 2^32. *)
Lemma rebaseTimestamp_agrees_iff rt q ts :
  q <> QualityNone ->
  rebaseTimestamp rt q ts = rebaseTimestamp_spec rt q ts <-> wrap32 (remoteBaseTS rt q) = 0.
Proof.
  intros Hq.
  rewrite rebaseTimestamp_closed_form, rebaseTimestamp_spec_closed_form by assumption.
  unfold wrap32. set (r := remoteBaseTS rt q). set (x := baseTS rt + ts).
  split; intros H.
  - assert (E : (x - r - (x - 2 * r)) mod 2 ^ 32 = 0).
    { rewrite Zminus_mod, H, Z.sub_diag. reflexivity. }
    replace (x - r - (x - 2 * r)) with r in E by lia. exact E.
  - replace (x - 2 * r) with (x - r - r) by lia.
    rewrite (Zminus_mod (x - r) r), H, Z.sub_0_r, Z.mod_mod by lia. reflexivity.
Qed.

(** C1.  On a connected track whose chosen layer is High, with subscriber
    base 5000 and remote high base 1000, [push] forwards the packet with
    timestamp 3000 and writes timestamp 6000: the remote base has been
    subtracted twice, where the formula of the specification gives 7000. *)
Theorem push_rebase_subtracts_base_twice :
  exists t' p,
    push deltaFrame rebaseTrack rebasePacket QualityHigh = (t', p, [WriteRTP p])
    /\ Timestamp p = 6000
    /\ rebaseTimestamp_spec (remoteTrack rebaseTrack) QualityHigh (Timestamp rebasePacket) = 7000.
Proof. eexists _, _. repeat split; reflexivity. Qed.

(** One call of [push] either writes nothing and leaves the counter alone,
    or writes exactly the packet it returns, numbered with the incremented
    counter cut down to 16 bits. *)
Lemma push_sequenceNumber env t rtp q :
  forall t' p effs, push env t rtp q = (t', p, effs) ->
  (written effs = [] /\ sequenceNumber t' = sequenceNumber t)
  \/ (written effs = [p] /\ sequenceNumber t' = add32 (sequenceNumber t) 1
      /\ SequenceNumber p = wrap16 (add32 (sequenceNumber t) 1)).
Proof.
  intros t' p effs. unfold push.
  repeat match goal with
         | |- context [if ?b then _ else _] => destruct b eqn:?
         end;
    intros [= <- <- <-]; cbn; auto.
Qed.

Lemma written_app effs effs' : written (effs ++ effs') = written effs ++ written effs'.
Proof. unfold written. apply omap_app. Qed.

Lemma numbering_shift s (n : nat) :
  (fun k : nat => wrap16 (s + Z.of_nat k)) <$> seq 2 n
  = (fun k : nat => wrap16 (add32 s 1 + Z.of_nat k)) <$> seq 1 n.
Proof.
  rewrite <- (fmap_S_seq 1 n), <- list_fmap_compose.
  apply list_fmap_ext. intros _ k _. cbn [compose].
  unfold add32. rewrite wrap16_wrap32_add. f_equal. lia.
Qed.

(** C2 (as amended).  Over any sequence of [push] calls, from any state of
    the track, the k-th packet written carries the starting counter plus k,
    cut down to 16 bits: every written packet is numbered one above the
    previous one modulo 2^16, without gap or repetition, whatever layers the
    calls are for; and the 32-bit counter has advanced by the number of
    packets written. *)
Theorem pushAll_sequence_numbers (calls : list PushCall) (t : SimulcastClientTrack) :
  emittedSequenceNumbers (pushAll t calls).2
  = (fun k : nat => wrap16 (sequenceNumber t + Z.of_nat k))
      <$> seq 1 (length (written (pushAll t calls).2))
  /\ wrap32 (sequenceNumber (pushAll t calls).1)
     = wrap32 (sequenceNumber t + Z.of_nat (length (written (pushAll t calls).2))).
Proof.
  unfold emittedSequenceNumbers.
  revert t. induction calls as [|c rest IH]; intros t.
  - cbn. split; [reflexivity | f_equal; lia].
  - cbn [pushAll].
    destruct (push (callEnv c) t (callPacket c) (callQuality c)) as [[t' p] effs] eqn:Hpush.
    destruct (IH t') as [IHs IHc].
    destruct (pushAll t' rest) as [t'' effs'] eqn:Hrest. cbn [fst snd] in *.
    rewrite written_app, fmap_app, length_app.
    destruct (push_sequenceNumber _ _ _ _ _ _ _ Hpush) as [[Hw Hs] | (Hw & Hs & Hp)];
      rewrite Hw; cbn [length fmap list_fmap app Nat.add].
    + rewrite IHs, IHc, Hs. split; reflexivity.
    + rewrite IHs, IHc, Hs, Hp. split.
      * cbn [seq fmap list_fmap]. f_equal.
        -- unfold add32. rewrite wrap16_wrap32. reflexivity.
        -- symmetry. apply numbering_shift.
      * unfold add32. rewrite wrap32_add_l. f_equal. lia.
Qed.

(** C2 (as stated) fails where the 16-bit number wraps: a track whose
    counter stands at 65534 writes two packets numbered 65535 and 0. *)
Lemma pushAll_sequence_wraps :
  emittedSequenceNumbers (pushAll wrappingTrack wrappingCalls).2 = [65535; 0]
  /\ ~ stepsByOne (emittedSequenceNumbers (pushAll wrappingTrack wrappingCalls).2).
Proof.
  assert (E : emittedSequenceNumbers (pushAll wrappingTrack wrappingCalls).2 = [65535; 0])
    by reflexivity.
  split; [exact E |].
  rewrite E. intros H. specialize (H 0%nat 65535 0 eq_refl eq_refl). discriminate.
Qed.

(** The division of [getDistributedQuality] fails exactly when the count
    of simulcast tracks of the other clients is zero as a [uint32]. *)
Lemma getDistributedQuality_panics_iff cfg self clients bw :
  getDistributedQuality cfg self clients bw = None
  <-> wrap32 (simulcastTracksCount (countTracks self clients)) = 0.
Proof.
  unfold getDistributedQuality.
  destruct (wrap32 (simulcastTracksCount (countTracks self clients)) =? 0) eqn:E.
  - apply Z.eqb_eq in E. split; auto.
  - apply Z.eqb_neq in E. split; [discriminate | contradiction].
Qed.

(** C4.  In a room whose only other client publishes audio alone the count
    of simulcast tracks is zero, and for every bandwidth and every
    configuration [getDistributedQuality] divides by zero: it returns no
    quality level. *)
Theorem getDistributedQuality_divides_by_zero (cfg : BitratesConfig) (bw : Z) :
  simulcastTracksCount (countTracks "subscriber" audioOnlyRoom) = 0
  /\ getDistributedQuality cfg "subscriber" audioOnlyRoom bw = None.
Proof. split; reflexivity. Qed.

(** The three branches of the mapping, as the code decides them. *)
Lemma qualityOfShare_cases cfg share :
  (qualityOfShare cfg share = QualityHigh <-> VideoHigh cfg < share)
  /\ (qualityOfShare cfg share = QualityMid <-> VideoMid cfg < share < VideoHigh cfg)
  /\ (qualityOfShare cfg share = QualityLow
      <-> share = VideoHigh cfg \/ (share <= VideoMid cfg /\ share < VideoHigh cfg)).
Proof.
  unfold qualityOfShare.
  destruct (Z.ltb_spec (VideoHigh cfg) share), (Z.ltb_spec share (VideoHigh cfg)),
    (Z.ltb_spec (VideoMid cfg) share); cbn;
    (repeat split; intros; try discriminate; try reflexivity; try lia).
Qed.

(** C5.  A share exactly equal to the video-high threshold maps to Low,
    whatever the thresholds are: it is not above the threshold, and the
    branch for Mid asks for a share strictly below it. *)
Theorem qualityOfShare_at_high_threshold (cfg : BitratesConfig) :
  qualityOfShare cfg (VideoHigh cfg) = QualityLow.
Proof. unfold qualityOfShare. rewrite Z.ltb_irrefl. reflexivity. Qed.

(** The same through the whole function: thresholds 1000 and 500, one
    simulcast track to serve and 1000 of bandwidth left. *)
Example getDistributedQuality_at_high_threshold :
  getDistributedQuality thresholds "subscriber" oneSimulcastRoom 1000 = Some QualityLow
  /\ getDistributedQuality thresholds "subscriber" oneSimulcastRoom 999 = Some QualityMid
  /\ getDistributedQuality thresholds "subscriber" oneSimulcastRoom 1001 = Some QualityHigh.
Proof. repeat split; reflexivity. Qed.

End ClientTrackProofs.

(** * Properties of the metadata subscriptions *)

Module MetaProofs.

Import Meta MetaInputs.

Section Subscriptions.

Context {Value Callback : Type}.

Implicit Types (md : Metadata Value Callback) (s : OnMetaChangedSubscription).

(** A successful [Unsubscribe] always takes one callback away. *)
Lemma Unsubscribe_length s md md' :
  Unsubscribe s md = Some md' ->
  (length (onChangedCallbacks md') + 1 = length (onChangedCallbacks md))%nat.
Proof.
  unfold Unsubscribe. case_decide as Hle; [|discriminate].
  intros [= <-]. cbn. rewrite length_app, length_take, length_drop. lia.
Qed.

(** Hence no call of [Unsubscribe] leaves the callbacks as they were. *)
Lemma Unsubscribe_never_noop s md : Unsubscribe s md <> Some md.
Proof. intros H. apply Unsubscribe_length in H. lia. Qed.

(** Unsubscribing the handle just obtained undoes the registration. *)
Lemma Unsubscribe_OnChanged md f :
  Unsubscribe (OnChanged md f).2 (OnChanged md f).1 = Some md.
Proof.
  unfold Unsubscribe, OnChanged. cbn.
  case_decide as Hle.
  - f_equal. destruct md as [mm cbs]. cbn. f_equal.
    rewrite take_app_length, drop_ge by (rewrite length_app; cbn; lia).
    apply app_nil_r.
  - rewrite length_app in Hle. cbn in Hle. lia.
Qed.

End Subscriptions.

(** C9.  With the callbacks "first" and "second" registered, the first
    [Unsubscribe] on the handle of "first" removes that callback; the second
    [Unsubscribe] on the same handle removes "second" as well, so that no
    callback is left; on the handle of "second" the second call panics on
    the slice bounds. *)
Theorem Unsubscribe_twice_removes_other :
  onChangedCallbacks afterSecond = ["first"; "second"]
  /\ (exists once twice,
        Unsubscribe firstHandle afterSecond = Some once
        /\ onChangedCallbacks once = ["second"]
        /\ Unsubscribe firstHandle once = Some twice
        /\ onChangedCallbacks twice = [])
  /\ (exists once,
        Unsubscribe secondHandle afterSecond = Some once
        /\ onChangedCallbacks once = ["first"]
        /\ Unsubscribe secondHandle once = None).
Proof.
  split; [reflexivity|]. split.
  - eexists _, _. repeat split; reflexivity.
  - eexists _. repeat split; reflexivity.
Qed.

End MetaProofs.

(** * Properties of the client signaling and of the room *)

Module RoomProofs.

Import Room RoomStated RoomInputs.

(** ** The two negotiation flags *)

(** Requests for permission that arrive during a round change nothing but
    the pending flag, as long as the local renegotiation is marked. *)
Lemma remoteRequests_during_round (n : nat) (c : Client) :
  isInRenegotiation c = true ->
  Nat.iter n (fun c => (IsAllowNegotiation c).1) c
  = if decide (n = 0%nat) then c else set_pendingRemoteRenegotiation true c.
Proof.
  intros Hin. induction n as [|n IH]; [reflexivity|].
  rewrite Nat.iter_succ, IH. unfold IsAllowNegotiation.
  destruct (decide (n = 0%nat)); cbn; rewrite Hin; reflexivity.
Qed.

Lemma IsAllowNegotiation_flags (c : Client) :
  NegotiationNeeded (IsAllowNegotiation c).1 = NegotiationNeeded c
  /\ isInRenegotiation (IsAllowNegotiation c).1 = isInRenegotiation c
  /\ events (IsAllowNegotiation c).1 = events c.
Proof. unfold IsAllowNegotiation. destruct (isInRenegotiation c) eqn:E; cbn; auto. Qed.

Lemma remoteRequests_flags (n : nat) (c : Client) :
  let c' := Nat.iter n (fun c => (IsAllowNegotiation c).1) c in
  NegotiationNeeded c' = NegotiationNeeded c
  /\ isInRenegotiation c' = isInRenegotiation c
  /\ events c' = events c.
Proof.
  induction n as [|n IH]; [cbn; auto|].
  cbn zeta in *. destruct IH as (H1 & H2 & H3).
  rewrite Nat.iter_succ.
  destruct (IsAllowNegotiation_flags (Nat.iter n (fun c => (IsAllowNegotiation c).1) c))
    as (G1 & G2 & G3).
  repeat split; congruence.
Qed.

(** A round leaves [NegotiationNeeded] and [isInRenegotiation] as they
    were, and sends out at most the call to [OnRenegotiation]. *)
Lemma renegotiateRound_flags env c :
  let r := renegotiateRound env c in
  NegotiationNeeded r.1 = NegotiationNeeded c
  /\ isInRenegotiation r.1 = isInRenegotiation c
  /\ (events r.1 = events c \/ events r.1 = events c ++ [EvOnRenegotiation]).
Proof.
  unfold renegotiateRound.
  pose proof (remoteRequests_flags (remoteRequests env)
                (emit [EvOnRenegotiation] (set_pcSignaling SignalingStateHaveLocalOffer c)))
    as (H1 & H2 & H3).
  destruct (outcome env); cbn [fst snd]; auto; cbn in *; rewrite ?H1, ?H2, ?H3; auto.
Qed.

Lemma renegotiateRound_completes env c :
  roundCompletes env -> (renegotiateRound env c).2 = false.
Proof. unfold roundCompletes, renegotiateRound. intros ->. reflexivity. Qed.

(** Once [NegotiationNeeded] is false the loop is over. *)
Lemma renegotiateLoop_done envs c :
  NegotiationNeeded c = false -> renegotiateLoop envs c = Some (c, false).
Proof. intros H. destruct envs; cbn; rewrite H; reflexivity. Qed.

(** The loop ends after one round at most: one environment is enough for
    [renegotiateQueuOp] to return. *)
Lemma renegotiateLoop_total env rest c :
  is_Some (renegotiateLoop (env :: rest) c).
Proof.
  cbn [renegotiateLoop]. destruct (NegotiationNeeded c); [|eauto].
  destruct (canRenegotiate _).
  - pose proof (renegotiateRound_flags env (set_NegotiationNeeded false c)) as (H & _).
    destruct (renegotiateRound env _) as [c' returned]. cbn in H.
    destruct returned; [eauto|]. rewrite renegotiateLoop_done by exact H. eauto.
  - rewrite renegotiateLoop_done by reflexivity. eauto.
Qed.

Lemma renegotiateQueuOp_total env rest c :
  is_Some (renegotiateQueuOp (env :: rest) c).
Proof.
  unfold renegotiateQueuOp.
  destruct (isInRemoteNegotiation _); [eauto|].
  destruct (isInRenegotiation _); [eauto|].
  destruct (renegotiateLoop_total env rest
              (set_isInRenegotiation true (set_NegotiationNeeded true c))) as [[c' r] ->].
  destruct r; eauto.
Qed.

(** What the loop sends out is calls to [OnRenegotiation] and nothing
    else, and it keeps [isInRenegotiation]. *)
Lemma renegotiateLoop_events envs : forall c c' r,
  renegotiateLoop envs c = Some (c', r) ->
  isInRenegotiation c' = isInRenegotiation c
  /\ exists n : nat, events c' = events c ++ replicate n EvOnRenegotiation.
Proof.
  induction envs as [|env rest IH]; intros c c' r; cbn [renegotiateLoop].
  - destruct (NegotiationNeeded c); [discriminate|]. intros [= <- <-].
    split; [reflexivity|]. exists 0%nat. cbn. symmetry. apply app_nil_r.
  - destruct (NegotiationNeeded c).
    2:{ intros [= <- <-]. split; [reflexivity|]. exists 0%nat. cbn. symmetry. apply app_nil_r. }
    destruct (canRenegotiate _).
    + pose proof (renegotiateRound_flags env (set_NegotiationNeeded false c)) as (_ & Hin & Hev).
      destruct (renegotiateRound env _) as [c1 returned]. cbn in Hin, Hev.
      assert (Hone : exists n : nat, events c1 = events c ++ replicate n EvOnRenegotiation).
      { destruct Hev as [-> | ->]; [exists 0%nat | exists 1%nat]; cbn;
          [symmetry; apply app_nil_r | reflexivity]. }
      destruct returned.
      * intros [= <- <-]. split; [exact Hin | exact Hone].
      * intros Hrest. apply IH in Hrest as (Hin' & n' & Hev').
        split; [congruence|]. destruct Hone as [n Hn].
        exists (n + n')%nat. rewrite Hev', Hn, <- app_assoc, replicate_add. reflexivity.
    + intros Hrest. apply IH in Hrest as (Hin' & n' & Hev'). cbn in *. eauto.
Qed.

(** [renegotiateQueuOp] never calls [OnAllowedRemoteRenegotiation]. *)
Lemma renegotiateQueuOp_events envs c c' :
  renegotiateQueuOp envs c = Some c' ->
  exists n : nat, events c' = events c ++ replicate n EvOnRenegotiation.
Proof.
  unfold renegotiateQueuOp.
  destruct (isInRemoteNegotiation _).
  { intros [= <-]. exists 0%nat. cbn. symmetry. apply app_nil_r. }
  destruct (isInRenegotiation _).
  { intros [= <-]. exists 0%nat. cbn. symmetry. apply app_nil_r. }
  destruct (renegotiateLoop envs _) as [[c1 r]|] eqn:Hloop; [|discriminate].
  apply renegotiateLoop_events in Hloop as (_ & n & Hn).
  destruct r; intros [= <-]; exists n; exact Hn.
Qed.

(** Where no round is cut short, the loop returns through its end. *)
Lemma renegotiateLoop_completes envs : forall c c' r,
  Forall roundCompletes envs ->
  renegotiateLoop envs c = Some (c', r) -> r = false.
Proof.
  induction envs as [|env rest IH]; intros c c' r Hall; cbn [renegotiateLoop].
  - destruct (NegotiationNeeded c); [discriminate|]. intros [= _ <-]. reflexivity.
  - destruct (NegotiationNeeded c); [|intros [= _ <-]; reflexivity].
    apply Forall_cons in Hall as [Henv Hrest].
    destruct (canRenegotiate _); [|apply IH; exact Hrest].
    pose proof (renegotiateRound_completes env (set_NegotiationNeeded false c) Henv) as Hr.
    destruct (renegotiateRound env _) as [c1 returned]. cbn in Hr. subst returned.
    apply IH; exact Hrest.
Qed.

(** As long as no renegotiation round is cut short, a client that is not
    in local renegotiation before an operation is not in it afterwards: at
    the boundaries of the operations the two flags are never both set. *)
Lemma runOp_keeps_idle op c c' :
  opCompletes op ->
  isInRenegotiation c = false ->
  runOp op c = Some c' ->
  isInRenegotiation c' = false.
Proof.
  intros Hop Hidle. destruct op; cbn [runOp].
  - intros [= <-]. unfold IsAllowNegotiation. rewrite Hidle. exact Hidle.
  - intros [= <-]. unfold negotiateQueuOp.
    repeat match goal with
           | |- context [if ?b then _ else _] => destruct b
           end; exact Hidle.
  - unfold renegotiateQueuOp.
    destruct (isInRemoteNegotiation _); [intros [= <-]; exact Hidle|].
    change (isInRenegotiation (set_NegotiationNeeded true c)) with (isInRenegotiation c).
    rewrite Hidle.
    destruct (renegotiateLoop envs _) as [[c1 r]|] eqn:Hloop; [|discriminate].
    apply renegotiateLoop_completes in Hloop; [|exact Hop]. subst r.
    intros [= <-]. reflexivity.
  - intros [= <-]. unfold allowRemoteRenegotiationQueuOp.
    destruct (hasOnAllowedRemoteRenegotiation c); exact Hidle.
  - intros [= <-]. exact Hidle.
Qed.

Lemma runOps_keeps_idle ops : forall c l,
  Forall opCompletes ops ->
  isInRenegotiation c = false ->
  runOps ops c = Some l ->
  Forall (fun c' => bothNegotiating c' = false) l.
Proof.
  induction ops as [|op rest IH]; intros c l Hall Hidle; cbn [runOps].
  - intros [= <-]. constructor.
  - apply Forall_cons in Hall as [Hop Hrest].
    destruct (runOp op c) as [c1|] eqn:Hrun; [|discriminate].
    pose proof (runOp_keeps_idle _ _ _ Hop Hidle Hrun) as Hidle1.
    destruct (runOps rest c1) as [l1|] eqn:Hl1; [|discriminate].
    intros [= <-]. constructor.
    + unfold bothNegotiating. rewrite Hidle1. reflexivity.
    + eapply IH; eauto.
Qed.

(** C3.  After a local renegotiation whose offer cannot be created, the
    early return leaves [isInRenegotiation] set; the allow-remote operation
    then sets [isInRemoteNegotiation] and both flags are true.  The same
    happens when the next operation is a remote offer that the peer
    connection rejects. *)
Theorem negotiation_flags_both_set :
  (exists c1 c2,
      runOps failedOfferThenAllow alice = Some [c1; c2]
      /\ isInRenegotiation c1 = true /\ isInRemoteNegotiation c1 = false
      /\ isInRenegotiation c2 = true /\ isInRemoteNegotiation c2 = true)
  /\ (exists c1 c2,
      runOps failedOfferThenNegotiate alice = Some [c1; c2]
      /\ isInRenegotiation c2 = true /\ isInRemoteNegotiation c2 = true).
Proof.
  split; eexists _, _; repeat split; reflexivity.
Qed.

(** The first half of the negotiation race holds: while a local
    renegotiation is in progress [IsAllowNegotiation] refuses and marks the
    pending remote renegotiation. *)
Lemma IsAllowNegotiation_during_renegotiation c :
  isInRenegotiation c = true ->
  IsAllowNegotiation c = (set_pendingRemoteRenegotiation true c, false).
Proof. intros H. unfold IsAllowNegotiation. rewrite H. reflexivity. Qed.

(** C8.  A client starts a local renegotiation; while it is blocked in
    [OnRenegotiation] the remote side asks for permission once and is
    refused; the loop then completes.  Afterwards the pending flag is still
    set, the local renegotiation is over, and the only call sent out is the
    one to [OnRenegotiation]: [OnAllowedRemoteRenegotiation], although set,
    has not been invoked. *)
Theorem renegotiation_leaves_remote_unnotified :
  exists c',
    renegotiateQueuOp [raceRound] alice = Some c'
    /\ isInRenegotiation c' = false
    /\ pendingRemoteRenegotiation c' = true
    /\ hasOnAllowedRemoteRenegotiation c' = true
    /\ events c' = [EvOnRenegotiation]
    /\ EvOnAllowedRemoteRenegotiation ∉ events c'.
Proof.
  eexists. repeat split; try reflexivity.
  cbn. intros H. apply list_elem_of_singleton in H. discriminate.
Qed.

(** ** Removing a published track *)

Lemma senderMatches_removed streamID id sender :
  senderMatches streamID id (if senderMatches streamID id sender then None else sender) = false.
Proof. destruct (senderMatches streamID id sender) eqn:E; [reflexivity | exact E]. Qed.

(** C7 (as amended).  [removePublishedTrack] always takes the entry out of
    the published map.  When the peer connection is Closed it returns false
    and leaves the senders alone.  Otherwise it returns true exactly when
    the entry was in the published map, and every sender that carried the
    track is left without it while the other senders are unchanged. *)
Theorem removePublishedTrack_by_state (streamID id : string) (c : Client) :
  let r := removePublishedTrack streamID id c in
  publishedTracks r.1 = delete (trackKey streamID id) (publishedTracks c)
  /\ (connectionState (peerConnection c) = PeerConnectionStateClosed ->
      r.2 = false /\ senders (peerConnection r.1) = senders (peerConnection c))
  /\ (connectionState (peerConnection c) <> PeerConnectionStateClosed ->
      (r.2 = true <-> is_Some (publishedTracks c !! trackKey streamID id))
      /\ Forall (fun sender => senderMatches streamID id sender = false)
                (senders (peerConnection r.1))
      /\ (forall (i : nat) (sender : option Track),
            senders (peerConnection c) !! i = Some sender ->
            senders (peerConnection r.1) !! i
            = Some (if senderMatches streamID id sender then None else sender))).
Proof.
  cbn zeta. unfold removePublishedTrack.
  set (k := trackKey streamID id).
  set (removed := bool_decide (is_Some (publishedTracks c !! k))).
  set (c1 := if removed then set_publishedTracks (delete k (publishedTracks c)) c else c).
  assert (Hmap : publishedTracks c1 = delete k (publishedTracks c)).
  { subst c1 removed. case_bool_decide as Hsome; [reflexivity|].
    symmetry. apply delete_id. apply eq_None_not_Some. exact Hsome. }
  assert (Hpc : peerConnection c1 = peerConnection c).
  { subst c1. destruct removed; reflexivity. }
  rewrite Hpc.
  destruct (decide (connectionState (peerConnection c) = PeerConnectionStateClosed))
    as [Hclosed | Hopen].
  - rewrite (bool_decide_eq_true_2 _ Hclosed). cbn [fst snd].
    split; [exact Hmap|]. split; [|contradiction].
    intros _. rewrite Hpc. auto.
  - rewrite (bool_decide_eq_false_2 _ Hopen). cbn [fst snd].
    split; [exact Hmap|]. split; [contradiction|].
    intros _. cbn. split; [|split].
    + subst removed. rewrite bool_decide_eq_true. reflexivity.
    + apply Forall_fmap, Forall_forall. intros sender _.
      cbn. apply senderMatches_removed.
    + intros i sender Hi. rewrite list_lookup_fmap, Hi. reflexivity.
Qed.

(** The amended statement at a closed and at a connected subscriber of the
    camera track. *)
Lemma removePublishedTrack_by_state_witness :
  ((removePublishedTrack "s" "t" closedHolder).2 = false
   /\ senders (peerConnection (removePublishedTrack "s" "t" closedHolder).1)
      = senders (peerConnection closedHolder))
  /\ ((removePublishedTrack "s" "t" holder).2 = true
      <-> is_Some (publishedTracks holder !! trackKey "s" "t")).
Proof.
  split.
  - destruct (removePublishedTrack_by_state "s" "t" closedHolder) as (_ & Hclosed & _).
    apply Hclosed. reflexivity.
  - destruct (removePublishedTrack_by_state "s" "t" holder) as (_ & _ & Hopen).
    apply Hopen. discriminate.
Defined.

(** C7 (as stated) fails for a Closed peer connection: the entry of the
    camera track is taken out of the published map, yet the result is false
    and the sender still carries the track. *)
Lemma removePublishedTrack_closed_reports_nothing :
  publishedTracks closedHolder !! trackKey "s" "t" = Some cameraTrack
  /\ publishedTracks (removePublishedTrack "s" "t" closedHolder).1 !! trackKey "s" "t" = None
  /\ (removePublishedTrack "s" "t" closedHolder).2 = false
  /\ senders (peerConnection (removePublishedTrack "s" "t" closedHolder).1)
     = [Some cameraTrack]
  /\ ~ removePublishedTrack_stated "s" "t" closedHolder.
Proof.
  assert (Hbefore : publishedTracks closedHolder !! trackKey "s" "t" = Some cameraTrack)
    by reflexivity.
  assert (Hafter : publishedTracks (removePublishedTrack "s" "t" closedHolder).1
                     !! trackKey "s" "t" = None) by reflexivity.
  assert (Hres : (removePublishedTrack "s" "t" closedHolder).2 = false) by reflexivity.
  repeat split; try assumption; try reflexivity.
  intros (_ & _ & Hiff). cbn zeta in Hiff.
  rewrite Hres in Hiff. destruct Hiff as [_ Hiff].
  enough (false = true) by discriminate. apply Hiff.
  left. intros Heq. rewrite Heq, Hbefore in Hafter. discriminate.
Qed.

(** ** Removing a track from the room *)

Lemma foldl_removeTrackStep streamID id (l : list Client) : forall acc,
  foldl (removeTrackStep streamID id) acc l
  = (acc.1 ++ ((fun c => (removePublishedTrack streamID id c).1) <$> l),
     default acc.2 (last ((fun c => (removePublishedTrack streamID id c).2) <$> l))).
Proof.
  induction l as [|c l IH]; intros [done r].
  - cbn. rewrite app_nil_r. reflexivity.
  - cbn [foldl fmap list_fmap]. rewrite IH. unfold removeTrackStep.
    destruct (removePublishedTrack streamID id c) as [c' r']. cbn [fst snd].
    rewrite <- app_assoc. cbn [app]. f_equal.
    rewrite last_cons. destruct (last _); reflexivity.
Qed.

(** Every client of the registry goes through [removePublishedTrack]. *)
Lemma SFU_removeTrack_clients streamID id s :
  clients (SFU_removeTrack streamID id s).1
  = (fun c => (removePublishedTrack streamID id c).1) <$> clients s.
Proof.
  unfold SFU_removeTrack. rewrite foldl_removeTrackStep. reflexivity.
Qed.

(** The result is the answer of the client the iteration visits last. *)
Lemma SFU_removeTrack_last streamID id cs c :
  (SFU_removeTrack streamID id (mkSFU (cs ++ [c]))).2
  = (removePublishedTrack streamID id c).2.
Proof.
  unfold SFU_removeTrack. rewrite foldl_removeTrackStep. cbn [snd clients].
  rewrite fmap_app. cbn [fmap list_fmap]. rewrite last_snoc. reflexivity.
Qed.

(** C6.  With a registry iterated as [holder; bystander], where the first
    client receives the camera track and the second does not,
    [SFU.removeTrack] returns false although one client had the track; with
    the iteration order [bystander; holder] it returns true. *)
Theorem SFU_removeTrack_forgets_earlier_clients :
  reportsRemoval "s" "t" holder
  /\ (SFU_removeTrack "s" "t" holderFirst).2 = false
  /\ (SFU_removeTrack "s" "t" holderLast).2 = true
  /\ ~ SFU_removeTrack_stated "s" "t" holderFirst.
Proof.
  assert (Hholder : reportsRemoval "s" "t" holder) by reflexivity.
  assert (Hfirst : (SFU_removeTrack "s" "t" holderFirst).2 = false) by reflexivity.
  repeat split; try assumption; try reflexivity.
  unfold SFU_removeTrack_stated. rewrite Hfirst. intros [_ Hiff].
  enough (false = true) by discriminate. apply Hiff.
  apply Exists_cons_hd. exact Hholder.
Qed.

(** ** Current tracks and synchronisation *)

Lemma addTrack_ID track c : ID (addTrack track c).1 = ID c.
Proof.
  unfold addTrack, setClientTrack.
  repeat match goal with
         | |- context [if ?b then _ else _] => destruct b
         | |- context [match ?o with Some _ => _ | None => _ end] => destruct o
         end; reflexivity.
Qed.

(** A client of the registry answers the key-frame request. *)
Lemma requestKeyFrameFromClient_member s peer :
  peer ∈ clients s ->
  requestKeyFrameFromClient s (ID peer) = [EvRequestKeyFrame (ID peer)].
Proof.
  intros Hin. unfold requestKeyFrameFromClient.
  rewrite bool_decide_eq_true_2; [reflexivity|].
  apply Exists_exists. exists peer. split; [exact Hin | reflexivity].
Qed.

(** The inner loop of [SyncTrack] when nothing counts as current: every
    track of another client is handed to [addTrack] and a key frame is
    requested for it. *)
Lemma syncTracks_nothing_current s peer (l : list Track) : forall c need evs,
  peer ∈ clients s ->
  ID c <> ID peer ->
  exists c',
    foldl (syncTrackStep s ∅ (ID peer)) (c, need, evs) l
    = (c', need || bool_decide (l <> []),
       evs ++ replicate (length l) (EvRequestKeyFrame (ID peer)))
    /\ ID c' = ID c.
Proof.
  induction l as [|track l IH]; intros c need evs Hin Hne.
  - exists c. cbn. rewrite orb_false_r, app_nil_r. auto.
  - cbn [foldl]. unfold syncTrackStep at 2.
    rewrite bool_decide_eq_true_2 by exact Hne.
    rewrite lookup_empty, requestKeyFrameFromClient_member by exact Hin.
    destruct (IH (addTrack track c).1 true (evs ++ [EvRequestKeyFrame (ID peer)]) Hin)
      as (c' & Hfold & Hid).
    { rewrite addTrack_ID. exact Hne. }
    exists c'. rewrite Hfold. split.
    + rewrite orb_true_l, (bool_decide_eq_true_2 (track :: l <> [])) by discriminate.
      rewrite orb_true_r, <- app_assoc. reflexivity.
    + rewrite Hid. apply addTrack_ID.
Qed.

(** The client's own entry of the registry is passed over. *)
Lemma syncTracks_self s cur (l : list Track) : forall c need evs,
  foldl (syncTrackStep s cur (ID c)) (c, need, evs) l = (c, need, evs).
Proof.
  induction l as [|track l IH]; intros c need evs; [reflexivity|].
  cbn [foldl]. unfold syncTrackStep at 2.
  rewrite bool_decide_eq_false_2 by (intros H; apply H; reflexivity).
  apply IH.
Qed.

Lemma tracks_list_nonempty (peer : Client) :
  (map_to_list (tracks peer)).*2 <> [] <-> tracks peer <> ∅.
Proof.
  rewrite <- (map_to_list_empty_iff (tracks peer)).
  destruct (map_to_list (tracks peer)); cbn; split; intros H; congruence.
Qed.

(** The outer loop of [SyncTrack] when nothing counts as current. *)
Lemma syncPeers_nothing_current s (peers : list Client) : forall c need evs,
  Forall (fun peer => peer ∈ clients s) peers ->
  exists c' need',
    foldl (syncPeer s ∅) (c, need, evs) peers
    = (c', need', evs ++ requestsForAll (ID c) peers)
    /\ ID c' = ID c
    /\ (need' = true <-> need = true \/ otherHasTrack (ID c) peers).
Proof.
  induction peers as [|peer peers IH]; intros c need evs Hall.
  - exists c, need. cbn. rewrite app_nil_r. repeat split; auto.
    intros [H | H]; [exact H | inversion H].
  - apply Forall_cons in Hall as [Hin Hrest]. cbn [foldl].
    unfold syncPeer at 2. unfold requestsForAll, otherHasTrack. cbn [mbind list_bind].
    fold (requestsForAll (ID c) peers).
    destruct (decide (ID c = ID peer)) as [Heq | Hne].
    + rewrite <- Heq, syncTracks_self.
      destruct (IH c need evs Hrest) as (c' & need' & Hfold & Hid & Hneed).
      exists c', need'. rewrite Hfold.
      rewrite (bool_decide_eq_false_2 (ID c <> ID c)) by (intros H; apply H; reflexivity).
      cbn [app]. repeat split; auto.
      * intros H. apply Hneed in H as [H | H]; [left; exact H | right].
        apply Exists_cons_tl. exact H.
      * intros [H | H]; apply Hneed; [left; exact H | right].
        apply Exists_cons in H as [[Hself _] | H]; [|exact H].
        exfalso. apply Hself. exact Heq.
    + destruct (syncTracks_nothing_current s peer ((map_to_list (tracks peer)).*2)
                  c need evs Hin Hne) as (c1 & Hinner & Hid1).
      rewrite Hinner.
      destruct (IH c1 (need || bool_decide ((map_to_list (tracks peer)).*2 <> []))
                  (evs ++ replicate (length (map_to_list (tracks peer)).*2)
                                    (EvRequestKeyFrame (ID peer))) Hrest)
        as (c' & need' & Hfold & Hid & Hneed).
      exists c', need'. rewrite Hfold, Hid1.
      rewrite (bool_decide_eq_true_2 (ID c <> ID peer)) by exact Hne.
      rewrite length_fmap, length_map_to_list, <- app_assoc.
      split; [reflexivity|]. split; [congruence|].
      rewrite Hneed, Hid1, orb_true_iff, bool_decide_eq_true, tracks_list_nonempty.
      unfold otherHasTrack. rewrite Exists_cons. tauto.
Qed.

(** C10.  For a client whose peer connection is Closed or Failed,
    [GetCurrentTracks] is empty whatever its published map holds; hence
    [SyncTrack] takes none of the tracks of the room as present: it asks for
    renegotiation exactly when some other client has a track, and requests a
    key frame for every track of every other client. *)
Theorem SyncTrack_of_closed_or_failed (s : SFU) (c : Client) :
  connectionState (peerConnection c) = PeerConnectionStateClosed
  \/ connectionState (peerConnection c) = PeerConnectionStateFailed ->
  GetCurrentTracks c = ∅
  /\ ((SyncTrack s c).1.2 = true <-> otherHasTrack (ID c) (clients s))
  /\ (SyncTrack s c).2 = requestsForAll (ID c) (clients s).
Proof.
  intros Hstate.
  assert (Hcur : GetCurrentTracks c = ∅).
  { unfold GetCurrentTracks. destruct Hstate as [-> | ->]; reflexivity. }
  split; [exact Hcur|].
  unfold SyncTrack. rewrite Hcur.
  destruct (syncPeers_nothing_current s (clients s) c false [])
    as (c' & need' & Hfold & _ & Hneed).
  { apply Forall_forall. auto. }
  rewrite Hfold. cbn [fst snd app]. split; [|reflexivity].
  rewrite Hneed. split; [intros [H | H]; [discriminate | exact H] | auto].
Qed.

(** The statement at the closed subscriber of the camera track, in the room
    it shares with the publisher: its published map holds the track, and
    the track is offered to it again. *)
Lemma SyncTrack_of_closed_or_failed_witness :
  publishedTracks closedHolder !! trackKey "s" "t" = Some cameraTrack
  /\ GetCurrentTracks closedHolder = ∅
  /\ ((SyncTrack closedRoom closedHolder).1.2 = true
      <-> otherHasTrack (ID closedHolder) (clients closedRoom))
  /\ (SyncTrack closedRoom closedHolder).2
     = requestsForAll (ID closedHolder) (clients closedRoom).
Proof.
  split; [reflexivity|].
  apply (SyncTrack_of_closed_or_failed closedRoom closedHolder).
  left. reflexivity.
Defined.

End RoomProofs.

(** * Further properties of the simulcast client track *)

Module PushProofs.

Import ClientTrack Stated Inputs MoreStated MoreInputs ClientTrackProofs.

(** X1.  [push] changes the chosen quality only on a key frame whose
    timestamp differs from the last one seen, and only for a connected
    subscriber. *)
Theorem push_switches_only_on_new_keyframe env t rtp q :
  lastQuality (push env t rtp q).1.1 <> lastQuality t ->
  connectionState env = PeerConnectionStateConnected
  /\ isKeyframe env = true
  /\ lastTimestamp t <> Timestamp rtp.
Proof.
  unfold push.
  destruct (bool_decide (connectionState env = PeerConnectionStateConnected)) eqn:Hc;
    cbn [negb]; [|cbn; congruence].
  apply bool_decide_eq_true in Hc.
  destruct (isKeyframe env) eqn:Hk; cbn [negb andb].
  - destruct (lastTimestamp t =? Timestamp rtp) eqn:Hts; cbn [negb andb].
    + destruct (bool_decide (lastQuality t = q)) eqn:Hq; cbn; congruence.
    + apply Z.eqb_neq in Hts. auto.
  - destruct (bool_decide (lastQuality t = QualityNone)); cbn; [congruence|].
    destruct (bool_decide (lastQuality t = q)) eqn:Hq; cbn; congruence.
Qed.

Lemma push_switches_only_on_new_keyframe_witness :
  connectionState midKeyframe = PeerConnectionStateConnected
  /\ isKeyframe midKeyframe = true
  /\ lastTimestamp highTrack <> Timestamp midPacket.
Proof.
  apply (push_switches_only_on_new_keyframe midKeyframe highTrack midPacket QualityMid).
  cbn. discriminate.
Defined.

(** X2.  Whenever [push] writes a packet, it is the packet the call leaves
    behind, it belongs to the layer that is recorded as the last quality
    afterwards, and the last timestamp recorded is the one the packet came
    in with. *)
Theorem push_written_packet env t rtp q p' :
  WriteRTP p' ∈ (push env t rtp q).2 ->
  p' = (push env t rtp q).1.2
  /\ lastQuality (push env t rtp q).1.1 = q
  /\ lastTimestamp (push env t rtp q).1.1 = Timestamp rtp
  /\ Timestamp p' = rebaseTimestamp (remoteTrack t) q (Timestamp rtp).
Proof.
  unfold push.
  repeat match goal with
         | |- context [if ?b then _ else _] => destruct b eqn:?
         end; cbn [fst snd];
    intros Hin;
    try (apply elem_of_nil in Hin; contradiction);
    try (apply list_elem_of_singleton in Hin; try discriminate;
         injection Hin as ->; cbn; repeat split;
         try reflexivity; try (eapply bool_decide_eq_true_1; eassumption)).
Qed.

Lemma push_written_packet_witness :
  mkPacket 90 8 = (push midKeyframe highTrack midPacket QualityMid).1.2
  /\ lastQuality (push midKeyframe highTrack midPacket QualityMid).1.1 = QualityMid
  /\ lastTimestamp (push midKeyframe highTrack midPacket QualityMid).1.1 = Timestamp midPacket
  /\ Timestamp (mkPacket 90 8)
     = rebaseTimestamp (remoteTrack highTrack) QualityMid (Timestamp midPacket).
Proof.
  apply (push_written_packet midKeyframe highTrack midPacket QualityMid (mkPacket 90 8)).
  cbn. apply list_elem_of_singleton. reflexivity.
Defined.

(** X3.  As long as no quality has been chosen and no key frame comes in,
    nothing is forwarded and the track does not change; every call made
    while the subscriber is connected asks the publisher for a key frame. *)
Theorem pushAll_waits_for_keyframe (calls : list PushCall) (t : SimulcastClientTrack) :
  lastQuality t = QualityNone ->
  Forall (fun c => isKeyframe (callEnv c) = false) calls ->
  (pushAll t calls).1 = t
  /\ written (pushAll t calls).2 = []
  /\ requestedPLIs (pushAll t calls).2 = connectedCalls calls.
Proof.
  intros Hnone. induction calls as [|c rest IH]; intros Hall; [auto|].
  apply Forall_cons in Hall as [Hc Hrest]. destruct (IH Hrest) as (IH1 & IH2 & IH3).
  cbn [pushAll]. unfold connectedCalls. cbn [List.filter]. unfold isConnectedCall at 1.
  assert (Hpush : push (callEnv c) t (callPacket c) (callQuality c)
                  = (t, callPacket c,
                     if bool_decide (connectionState (callEnv c) = PeerConnectionStateConnected)
                     then [SendPLI QualityNone] else [])).
  { unfold push. rewrite Hc, Hnone.
    destruct (bool_decide (connectionState (callEnv c) = PeerConnectionStateConnected));
      reflexivity. }
  rewrite Hpush. destruct (pushAll t rest) as [t' effs]. cbn [fst snd] in *. subst t'.
  split; [reflexivity|].
  destruct (bool_decide (connectionState (callEnv c) = PeerConnectionStateConnected));
    cbn; unfold requestedPLIs in IH3; cbn; rewrite ?IH3; auto.
Qed.

Lemma pushAll_waits_for_keyframe_witness :
  (pushAll (mkSimulcastClientTrack rebaseSource 0 QualityNone 0)
           [mkPushCall deltaFrame rebasePacket QualityHigh]).1
  = mkSimulcastClientTrack rebaseSource 0 QualityNone 0
  /\ written (pushAll (mkSimulcastClientTrack rebaseSource 0 QualityNone 0)
                      [mkPushCall deltaFrame rebasePacket QualityHigh]).2 = []
  /\ requestedPLIs (pushAll (mkSimulcastClientTrack rebaseSource 0 QualityNone 0)
                            [mkPushCall deltaFrame rebasePacket QualityHigh]).2
     = connectedCalls [mkPushCall deltaFrame rebasePacket QualityHigh].
Proof.
  apply pushAll_waits_for_keyframe; [reflexivity|]. repeat constructor.
Defined.

(** X4.  Within one layer the rewriting keeps the distance between
    timestamps: two packets of the same layer are as far apart after the
    rewriting as before, modulo 2^32. *)
Theorem rebaseTimestamp_keeps_distance (rt : SimulcastTrack) (q : QualityLevel) (ts1 ts2 : Z) :
  wrap32 (rebaseTimestamp rt q ts2 - rebaseTimestamp rt q ts1) = wrap32 (ts2 - ts1).
Proof.
  destruct (decide (q = QualityNone)) as [-> | Hq]; [reflexivity|].
  rewrite !rebaseTimestamp_closed_form by assumption.
  unfold wrap32. rewrite <- Zminus_mod. f_equal. lia.
Qed.

Lemma countTrack_total n track :
  totalCount (countTrack n track) = totalCount n + 1
  /\ (countsNonNegative n -> countsNonNegative (countTrack n track)).
Proof.
  unfold countTrack, totalCount, countsNonNegative.
  destruct (bool_decide _); [|destruct (IsSimulcast track)]; cbn; split; lia.
Qed.

Lemma foldl_countTrack_total (l : list RoomTrack) : forall n,
  totalCount (foldl countTrack n l) = totalCount n + Z.of_nat (length l)
  /\ (countsNonNegative n -> countsNonNegative (foldl countTrack n l)).
Proof.
  induction l as [|track l IH]; intros n; cbn [foldl length].
  - split; [lia | auto].
  - destruct (IH (countTrack n track)) as [IH1 IH2].
    destruct (countTrack_total n track) as [H1 H2].
    split; [lia | auto].
Qed.

Lemma foldl_countClient_total self (cs : list RoomClient) : forall n,
  totalCount (foldl (countClient self) n cs)
  = totalCount n + Z.of_nat (length (othersTracks self cs))
  /\ (countsNonNegative n -> countsNonNegative (foldl (countClient self) n cs)).
Proof.
  induction cs as [|client cs IH]; intros n; cbn [foldl].
  - cbn. split; [lia | auto].
  - destruct (IH (countClient self n client)) as [IH1 IH2].
    unfold othersTracks in *. cbn [mbind list_bind]. rewrite length_app.
    unfold countClient in *. destruct (bool_decide (self ≠ ID client)).
    + destruct (foldl_countTrack_total (tracks client) n) as [H1 H2].
      split; [lia | auto].
    + cbn [length]. split; [lia | auto].
Qed.

(** X5.  The three counters of [getDistributedQuality] partition the
    tracks of the other clients: none is negative and together they count
    every track of every client but the track's own, once. *)
Theorem countTracks_partition (self : string) (clients : list RoomClient) :
  let n := countTracks self clients in
  0 <= audioTracksCount n /\ 0 <= videoTracksCount n /\ 0 <= simulcastTracksCount n
  /\ audioTracksCount n + videoTracksCount n + simulcastTracksCount n
     = Z.of_nat (length (othersTracks self clients)).
Proof.
  cbn zeta. unfold countTracks.
  destruct (foldl_countClient_total self clients (mkTrackCounts 0 0 0)) as [H1 H2].
  destruct H2 as (Ha & Hv & Hs); [unfold countsNonNegative; cbn; lia|].
  unfold totalCount in H1. cbn in H1. repeat split; try assumption; lia.
Qed.

Lemma leftBandwidth_wraps bw a v x y :
  sub32 (sub32 bw (mul32 (wrap32 a) x)) (mul32 (wrap32 v) y)
  = wrap32 (bw - (a * x + v * y)).
Proof.
  unfold sub32, mul32, wrap32. set (M := 2 ^ 32).
  rewrite Zminus_mod_idemp_r, Zminus_mod_idemp_l.
  replace (bw - (a mod M * x) mod M - v mod M * y)
    with (bw - v mod M * y - (a mod M * x) mod M) by lia.
  rewrite Zminus_mod_idemp_r.
  rewrite (Z.mod_eq a M), (Z.mod_eq v M) by (subst M; lia).
  replace (bw - (v - M * (v / M)) * y - (a - M * (a / M)) * x)
    with (bw - (a * x + v * y) + (x * (a / M) + y * (v / M)) * M) by lia.
  apply Z_mod_plus_full.
Qed.

(** X6.  When the budgets of the other clients' audio and plain video
    tracks exceed the available bandwidth, the unsigned subtraction wraps
    around: with one simulcast track to serve, the share is the shortfall
    taken from 2^32, and the track gets the high layer as soon as that is
    above the high threshold. *)
Theorem getDistributedQuality_shortfall_wraps
    (cfg : BitratesConfig) (self : string) (clients : list RoomClient) (bw : Z) :
  simulcastTracksCount (countTracks self clients) = 1 ->
  0 <= bw < fixedCost cfg (countTracks self clients) ->
  fixedCost cfg (countTracks self clients) <= 2 ^ 32 ->
  VideoHigh cfg < 2 ^ 32 + bw - fixedCost cfg (countTracks self clients) ->
  getDistributedQuality cfg self clients bw = Some QualityHigh.
Proof.
  intros Hs Hbw Hcost Hhigh. unfold getDistributedQuality, fixedCost in *.
  rewrite Hs, leftBandwidth_wraps.
  replace (wrap32 1) with 1 by reflexivity. cbn [Z.eqb]. rewrite Z.div_1_r.
  set (cost := audioTracksCount _ * Audio cfg + videoTracksCount _ * Video cfg) in *.
  assert (E : wrap32 (bw - cost) = 2 ^ 32 + bw - cost).
  { unfold wrap32. clearbody cost. change (2 ^ 32) with 4294967296 in *.
    symmetry. apply (Z.mod_unique_pos _ _ (-1)); lia. }
  rewrite E. unfold qualityOfShare.
  destruct (Z.ltb_spec (VideoHigh cfg) (2 ^ 32 + bw - cost)); [reflexivity | lia].
Qed.

Lemma getDistributedQuality_shortfall_wraps_witness :
  getDistributedQuality budgets "subscriber" mixedRoom 10 = Some QualityHigh.
Proof.
  assert (E : countTracks "subscriber" mixedRoom = mkTrackCounts 1 0 1) by reflexivity.
  apply getDistributedQuality_shortfall_wraps; unfold fixedCost; rewrite E; cbn; lia.
Defined.

End PushProofs.

(** * Properties of the track-ended callbacks, the track list and the
      metadata map *)

Module UtilityProofs.

Import TrackEnded TrackList.

Section EndedCallbacks.

Context {Callback : Type}.

Implicit Types (t : EndState Callback) (ops : list (EndOp Callback)).

(** Once a simulcast client track has ended, nothing is called any more. *)
Lemma runEndOps_ended ops : forall t,
  isEnded t = true -> (runEndOps ops t).2 = [].
Proof.
  induction ops as [|[f|] rest IH]; intros t Hended; cbn [runEndOps].
  - reflexivity.
  - apply IH. exact Hended.
  - unfold onTrackEnded. rewrite Hended.
    specialize (IH t Hended). destruct (runEndOps rest t). exact IH.
Qed.


End EndedCallbacks.


Section TrackListFacts.

Context {T : Type} (ID : T -> string).

Implicit Types (l : list T) (track : T) (id : string).

(** X8.  [Add] does not look for a track with the same ID: after it, [Get]
    still answers with the earlier track of that ID if there is one, and
    with the new track only otherwise. *)
Theorem Get_Add id track l :
  Get ID id (Add track l)
  = match Get ID id l with
    | Some earlier => Some earlier
    | None => if bool_decide (ID track = id) then Some track else None
    end.
Proof.
  unfold Add. induction l as [|x l IH]; cbn [Get app].
  - reflexivity.
  - destruct (bool_decide (ID x = id)); [reflexivity | exact IH].
Qed.

Lemma Get_None id l : Get ID id l = None <-> Forall (fun x => ID x <> id) l.
Proof.
  induction l as [|x l IH]; cbn [Get].
  - split; [constructor | reflexivity].
  - rewrite Forall_cons. case_bool_decide as Hx.
    + split; [discriminate | intros [H _]; contradiction].
    + rewrite IH. tauto.
Qed.

(** X9.  [Remove] of an ID that no track has leaves the list as it is;
    otherwise it takes out exactly one track. *)
Theorem Remove_length id l :
  match Get ID id l with
  | Some _ => (Length (Remove ID id l) + 1 = Length l)%nat
  | None => Remove ID id l = l
  end.
Proof.
  unfold Length. induction l as [|x l IH]; cbn [Remove Get length].
  - reflexivity.
  - destruct (bool_decide (ID x = id)); [lia|].
    destruct (Get ID id l); cbn [length]; [lia | congruence].
Qed.

(** X10.  [Remove] leaves the tracks of every other ID where [Get] finds
    them; and when no two tracks share an ID, the removed ID is gone. *)
Theorem Get_Remove id id' l :
  (id' <> id -> Get ID id' (Remove ID id l) = Get ID id' l)
  /\ (NoDup (ID <$> l) -> Get ID id (Remove ID id l) = None).
Proof.
  split.
  - intros Hne. induction l as [|x l IH]; cbn [Remove Get]; [reflexivity|].
    destruct (bool_decide (ID x = id)) eqn:Hx.
    + apply bool_decide_eq_true in Hx.
      rewrite bool_decide_eq_false_2 by congruence. reflexivity.
    + cbn [Get]. destruct (bool_decide (ID x = id')); [reflexivity | exact IH].
  - induction l as [|x l IH]; intros Hnd; cbn [Remove Get]; [reflexivity|].
    cbn [fmap list_fmap] in Hnd. apply NoDup_cons in Hnd as [Hx Hnd].
    destruct (bool_decide (ID x = id)) eqn:Hid.
    + apply bool_decide_eq_true in Hid. apply Get_None.
      apply Forall_forall. intros y Hy Heq. apply Hx.
      apply list_elem_of_fmap. exists y. split; [congruence | exact Hy].
    + cbn [Get]. rewrite Hid. apply IH. exact Hnd.
Qed.

(** X11.  Adding a track whose ID is not in the list and removing that ID
    gives the list back. *)
Theorem Remove_Add track l :
  Get ID (ID track) l = None -> Remove ID (ID track) (Add track l) = l.
Proof.
  unfold Add. induction l as [|x l IH]; cbn [Get Remove app].
  - intros _. rewrite bool_decide_eq_true_2 by reflexivity. reflexivity.
  - destruct (bool_decide (ID x = ID track)); [discriminate|].
    intros H. rewrite (IH H). reflexivity.
Qed.

End TrackListFacts.

Lemma Get_Remove_witness :
  Get id "b" (Remove id "a" ["a"; "b"]) = Get id "b" ["a"; "b"]
  /\ Get id "a" (Remove id "a" ["a"; "b"]) = None.
Proof.
  destruct (Get_Remove id "a" "b" ["a"; "b"]) as [Hother Hgone].
  split.
  - apply Hother. discriminate.
  - apply Hgone. cbn. apply NoDup_cons. split; [|apply NoDup_singleton].
    intros H. apply list_elem_of_singleton in H. discriminate.
Defined.

Lemma Remove_Add_witness : Remove id "c" (Add "c" ["a"; "b"]) = ["a"; "b"].
Proof. apply (Remove_Add id "c" ["a"; "b"]). reflexivity. Defined.

Import Meta.

Section MetadataFacts.

Context {Value Callback : Type}.

Implicit Types (md : Metadata Value Callback).

(** X12.  [Delete] of a key that is present succeeds, tells every callback
    once with a nil value, and afterwards the key is not found: [Get] fails
    and a second [Delete] fails without telling anyone, while the other
    keys are untouched. *)
Theorem Delete_present md k :
  is_Some (Get md k) ->
  exists md' calls,
    Delete md k = Some (md', calls)
    /\ calls = (fun f => mkInvocation f k None) <$> onChangedCallbacks md
    /\ Get md' k = None
    /\ Delete md' k = None
    /\ (forall k', k' <> k -> Get md' k' = Get md k').
Proof.
  unfold Get, Delete. intros [v Hv]. rewrite Hv.
  eexists _, _. split; [reflexivity|]. cbn.
  rewrite lookup_delete_eq. repeat split.
  intros k' Hne. apply lookup_delete_ne. congruence.
Qed.

(** X13.  Two subscriptions taken one after the other and given up in the
    order they were taken: the first [Unsubscribe] removes the first
    callback, but the second one panics and the second callback stays
    registered. *)
Theorem Unsubscribe_in_registration_order md (f g : Callback) :
  let first := OnChanged md f in
  let second := OnChanged first.1 g in
  exists md',
    Unsubscribe first.2 second.1 = Some md'
    /\ onChangedCallbacks md' = onChangedCallbacks md ++ [g]
    /\ m md' = m md
    /\ Unsubscribe second.2 md' = None.
Proof.
  cbn zeta. unfold Unsubscribe, OnChanged. cbn.
  rewrite !length_app. cbn.
  case_decide as H1; [|lia].
  eexists. split; [reflexivity|]. cbn.
  assert (E : take (length (onChangedCallbacks md)) ((onChangedCallbacks md ++ [f]) ++ [g])
              ++ drop (length (onChangedCallbacks md) + 1)
                      ((onChangedCallbacks md ++ [f]) ++ [g])
              = onChangedCallbacks md ++ [g]).
  { rewrite <- app_assoc. rewrite take_app_length.
    rewrite drop_app_ge by lia.
    replace (length (onChangedCallbacks md) + 1 - length (onChangedCallbacks md))%nat
      with 1%nat by lia.
    reflexivity. }
  rewrite E. repeat split.
  rewrite length_app. cbn. case_decide; [lia | reflexivity].
Qed.

(** X14.  The same two subscriptions given up in the reverse order: each
    [Unsubscribe] removes its own callback, and the metadata object is back
    to what it was before the two registrations. *)
Theorem Unsubscribe_in_reverse_order md (f g : Callback) :
  let first := OnChanged md f in
  let second := OnChanged first.1 g in
  Unsubscribe second.2 second.1 = Some first.1
  /\ Unsubscribe first.2 first.1 = Some md.
Proof.
  cbn zeta. split; apply MetaProofs.Unsubscribe_OnChanged.
Qed.

End MetadataFacts.

Lemma Delete_present_witness :
  exists md' calls,
    Delete (Set_ (MetaInputs.afterSecond) "room" 7).1 "room" = Some (md', calls)
    /\ calls = (fun f => mkInvocation f "room" None)
                 <$> onChangedCallbacks (Set_ (MetaInputs.afterSecond) "room" 7).1
    /\ Get md' "room" = None
    /\ Delete md' "room" = None
    /\ (forall k', k' <> "room" -> Get md' k' = Get (Set_ (MetaInputs.afterSecond) "room" 7).1 k').
Proof.
  apply (Delete_present (Set_ (MetaInputs.afterSecond) "room" 7).1 "room").
  exists 7. reflexivity.
Defined.

End UtilityProofs.

(** * Further properties of the client and of the room *)

Module RoomOpsProofs.

Import Room RoomStated RoomInputs RoomOps MoreInputs.

(** ** Adding and removing published tracks *)

Lemma setClientTrack_published track c :
  publishedTracks (setClientTrack track c).1
  = match publishedTracks c !! trackKey (trackStreamID track) (trackID track) with
    | Some _ => publishedTracks c
    | None => <[trackKey (trackStreamID track) (trackID track) := track]> (publishedTracks c)
    end.
Proof.
  unfold setClientTrack.
  destruct (publishedTracks c !! _); [reflexivity|].
  cbn. destruct (pcAddTrack track (peerConnection c)); reflexivity.
Qed.

(** X15.  [setClientTrack] never publishes a track twice: a second call
    with the same track returns false and changes nothing, whether the
    first call added the track, found it already there or failed to add
    it to the peer connection. *)
Theorem setClientTrack_twice (track : Track) (c : Client) :
  setClientTrack track (setClientTrack track c).1 = ((setClientTrack track c).1, false).
Proof.
  pose proof (setClientTrack_published track c) as Hpub.
  unfold setClientTrack at 1.
  destruct (publishedTracks c !! trackKey (trackStreamID track) (trackID track)) eqn:E;
    rewrite Hpub.
  - rewrite E. reflexivity.
  - rewrite lookup_insert_eq. reflexivity.
Qed.

Lemma pcRemoveMatching_twice streamID id pc :
  pcRemoveMatching streamID id (pcRemoveMatching streamID id pc)
  = pcRemoveMatching streamID id pc.
Proof.
  unfold pcRemoveMatching, set_senders. cbn. f_equal.
  rewrite <- list_fmap_compose. apply list_fmap_ext. intros _ sender _. cbn.
  rewrite RoomProofs.senderMatches_removed. reflexivity.
Qed.

(** [removePublishedTrack] with the two tests told apart. *)
Lemma removePublishedTrack_eq streamID id c :
  removePublishedTrack streamID id c
  = if bool_decide (connectionState (peerConnection c) = PeerConnectionStateClosed)
    then (set_publishedTracks (delete (trackKey streamID id) (publishedTracks c)) c, false)
    else (set_peerConnection (pcRemoveMatching streamID id (peerConnection c))
            (set_publishedTracks (delete (trackKey streamID id) (publishedTracks c)) c),
          bool_decide (is_Some (publishedTracks c !! trackKey streamID id))).
Proof.
  unfold removePublishedTrack.
  destruct (bool_decide (is_Some (publishedTracks c !! trackKey streamID id))) eqn:Hsome.
  - reflexivity.
  - apply bool_decide_eq_false in Hsome.
    rewrite delete_id by (apply eq_None_not_Some; exact Hsome).
    destruct c. reflexivity.
Qed.

Lemma removePublishedTrack_published streamID id c :
  publishedTracks (removePublishedTrack streamID id c).1
  = delete (trackKey streamID id) (publishedTracks c).
Proof.
  rewrite removePublishedTrack_eq. destruct (bool_decide _); reflexivity.
Qed.

Lemma removePublishedTrack_connectionState streamID id c :
  connectionState (peerConnection (removePublishedTrack streamID id c).1)
  = connectionState (peerConnection c)
  /\ ID (removePublishedTrack streamID id c).1 = ID c.
Proof.
  rewrite removePublishedTrack_eq. destruct (bool_decide _); cbn; auto.
Qed.

(** X16.  [removePublishedTrack] is idempotent: a second call for the same
    track returns false and changes nothing, in every state of the peer
    connection. *)
Theorem removePublishedTrack_twice (streamID id : string) (c : Client) :
  removePublishedTrack streamID id (removePublishedTrack streamID id c).1
  = ((removePublishedTrack streamID id c).1, false).
Proof.
  rewrite (removePublishedTrack_eq streamID id c).
  destruct (bool_decide (connectionState (peerConnection c) = PeerConnectionStateClosed))
    eqn:Hclosed; cbn [fst]; rewrite removePublishedTrack_eq; cbn; rewrite Hclosed;
    rewrite delete_delete_eq.
  - reflexivity.
  - rewrite lookup_delete_eq, pcRemoveMatching_twice.
    rewrite (bool_decide_eq_false_2 (is_Some None)) by apply is_Some_None.
    reflexivity.
Qed.



(** ** Keys of the track maps and the current tracks *)

Lemma wellKeyed_insert (m : gmap string Track) track :
  wellKeyed m -> wellKeyed (<[trackKey (trackStreamID track) (trackID track) := track]> m).
Proof.
  intros Hm k t. rewrite lookup_insert. case_decide as Hk.
  - intros [= <-]. symmetry. exact Hk.
  - apply Hm.
Qed.

Lemma wellKeyed_delete (m : gmap string Track) k : wellKeyed m -> wellKeyed (delete k m).
Proof.
  intros Hm k' t Hk'. apply Hm.
  apply lookup_delete_Some in Hk' as [_ Hk']. exact Hk'.
Qed.

(** X18.  [addTrack] keeps the maps of published and of pending tracks
    keyed by stream ID and track ID: if every track sits under the key made
    of its own IDs before the call, so it does afterwards. *)
Theorem addTrack_wellKeyed (track : Track) (c : Client) :
  wellKeyed (publishedTracks c) ->
  wellKeyed (pendingReceivedTracks c) ->
  wellKeyed (publishedTracks (addTrack track c).1)
  /\ wellKeyed (pendingReceivedTracks (addTrack track c).1).
Proof.
  intros Hpub Hpend. unfold addTrack.
  destruct (negb _).
  - cbn. split; [exact Hpub | apply wellKeyed_insert; exact Hpend].
  - rewrite setClientTrack_published. split.
    + destruct (publishedTracks c !! _); [exact Hpub | apply wellKeyed_insert; exact Hpub].
    + unfold setClientTrack. destruct (publishedTracks c !! _); [exact Hpend|].
      cbn. destruct (pcAddTrack _ _); exact Hpend.
Qed.

Lemma wellKeyed_empty : wellKeyed ∅.
Proof. intros k t H. rewrite lookup_empty in H. discriminate. Qed.

Lemma addTrack_wellKeyed_witness :
  wellKeyed (publishedTracks (addTrack screenTrack connectedClient).1)
  /\ wellKeyed (pendingReceivedTracks (addTrack screenTrack connectedClient).1).
Proof.
  apply (addTrack_wellKeyed screenTrack connectedClient); apply wellKeyed_empty.
Defined.

Lemma currentTracks_fold (id : string) (m : gmap string Track) :
  wellKeyed m ->
  map_fold
    (fun _ track currentTracks =>
       <[trackKey (trackStreamID track) (trackID track) := mkPublishedTrack id track]>
         currentTracks)
    ∅ m
  = mkPublishedTrack id <$> m.
Proof.
  induction m as [|k track m Hnone IH] using map_ind; intros Hkeyed.
  - rewrite map_fold_empty, fmap_empty. reflexivity.
  - assert (Hm : wellKeyed m).
    { intros j t Hj. apply Hkeyed. rewrite lookup_insert_ne; [exact Hj|].
      intros ->. congruence. }
    rewrite map_fold_insert_L; [| |exact Hnone].
    + rewrite (IH Hm), fmap_insert.
      rewrite <- (Hkeyed k track) by apply lookup_insert_eq. reflexivity.
    + intros j1 j2 z1 z2 y Hne H1 H2.
      apply insert_insert_ne.
      rewrite <- (Hkeyed _ _ H1), <- (Hkeyed _ _ H2). exact Hne.
Qed.

(** X19.  For a client whose peer connection is neither Closed nor Failed
    and whose published tracks are keyed by their own IDs,
    [GetCurrentTracks] has exactly the keys of the published map, each with
    the published track and the ID of the client. *)
Theorem GetCurrentTracks_published (c : Client) :
  wellKeyed (publishedTracks c) ->
  connectionState (peerConnection c) <> PeerConnectionStateClosed ->
  connectionState (peerConnection c) <> PeerConnectionStateFailed ->
  GetCurrentTracks c = mkPublishedTrack (ID c) <$> publishedTracks c.
Proof.
  intros Hkeyed Hclosed Hfailed. unfold GetCurrentTracks.
  rewrite (bool_decide_eq_false_2 _ Hclosed), (bool_decide_eq_false_2 _ Hfailed).
  cbn [orb]. apply currentTracks_fold. exact Hkeyed.
Qed.

Lemma screenSubscriber_wellKeyed : wellKeyed (publishedTracks screenSubscriber).
Proof.
  intros k t H. cbn in H. apply lookup_singleton_Some in H as [<- <-]. reflexivity.
Qed.

Lemma GetCurrentTracks_published_witness :
  GetCurrentTracks screenSubscriber
  = mkPublishedTrack (ID screenSubscriber) <$> publishedTracks screenSubscriber.
Proof.
  apply GetCurrentTracks_published.
  - exact screenSubscriber_wellKeyed.
  - discriminate.
  - discriminate.
Defined.

(** X20.  After [removePublishedTrack] for a stream ID and a track ID, the
    current tracks of the client do not hold the key of that track, in
    every state of the peer connection, provided the published tracks were
    keyed by their own IDs. *)
Theorem removed_track_not_current (streamID id : string) (c : Client) :
  wellKeyed (publishedTracks c) ->
  GetCurrentTracks (removePublishedTrack streamID id c).1 !! trackKey streamID id = None.
Proof.
  intros Hkeyed.
  pose proof (removePublishedTrack_published streamID id c) as Hpub.
  set (c' := (removePublishedTrack streamID id c).1) in *.
  destruct (decide (connectionState (peerConnection c') = PeerConnectionStateClosed))
    as [Hc | Hc].
  { unfold GetCurrentTracks. rewrite (bool_decide_eq_true_2 _ Hc). apply lookup_empty. }
  destruct (decide (connectionState (peerConnection c') = PeerConnectionStateFailed))
    as [Hf | Hf].
  { unfold GetCurrentTracks. rewrite (bool_decide_eq_true_2 _ Hf), orb_true_r.
    apply lookup_empty. }
  unfold GetCurrentTracks.
  rewrite (bool_decide_eq_false_2 _ Hc), (bool_decide_eq_false_2 _ Hf). cbn [orb].
  rewrite currentTracks_fold.
  - rewrite lookup_fmap, Hpub, lookup_delete_eq. reflexivity.
  - rewrite Hpub. apply wellKeyed_delete. exact Hkeyed.
Qed.

Lemma removed_track_not_current_witness :
  GetCurrentTracks (removePublishedTrack "screen" "v1" screenSubscriber).1
    !! trackKey "screen" "v1" = None.
Proof.
  apply removed_track_not_current. exact screenSubscriber_wellKeyed.
Defined.

(** X21.  After [SFU.removeTrack] the registry holds the same clients, in
    the same order and under the same IDs, and none of them has the key of
    the track in its published map any more, whatever the result says. *)
Theorem SFU_removeTrack_all_clients (streamID id : string) (s : SFU) :
  ID <$> clients (SFU_removeTrack streamID id s).1 = ID <$> clients s
  /\ Forall (fun c => publishedTracks c !! trackKey streamID id = None)
            (clients (SFU_removeTrack streamID id s).1).
Proof.
  rewrite RoomProofs.SFU_removeTrack_clients. split.
  - rewrite <- list_fmap_compose. apply list_fmap_ext. intros _ c _. cbn.
    apply removePublishedTrack_connectionState.
  - apply Forall_fmap, Forall_forall. intros c _. cbn.
    rewrite removePublishedTrack_published. apply lookup_delete_eq.
Qed.

(** ** Synchronising a client with the room *)

Lemma syncTracks_general s cur pid (l : list Track) : forall c need evs,
  exists c' need' evs',
    foldl (syncTrackStep s cur pid) (c, need, evs) l = (c', need', evs')
    /\ ID c' = ID c
    /\ (need' = true
        <-> need = true
            \/ (ID c ≠ pid
                /\ Exists (fun track =>
                             cur !! trackKey (trackStreamID track) (trackID track) = None) l)).
Proof.
  induction l as [|track l IH]; intros c need evs.
  - exists c, need, evs. cbn. repeat split; auto.
    intros [H | [_ H]]; [exact H | inversion H].
  - cbn [foldl]. unfold syncTrackStep at 2.
    destruct (decide (ID c ≠ pid)) as [Hne | Heq].
    + rewrite (bool_decide_eq_true_2 _ Hne).
      destruct (cur !! trackKey (trackStreamID track) (trackID track)) eqn:Hcur.
      * destruct (IH c need evs) as (c' & need' & evs' & Hfold & Hid & Hneed).
        exists c', need', evs'. repeat split; try assumption.
        -- intros H. apply Hneed in H as [H | [_ H]]; [left; exact H | right].
           split; [exact Hne | apply Exists_cons_tl; exact H].
        -- intros [H | [_ H]]; apply Hneed; [left; exact H | right].
           split; [exact Hne|]. apply Exists_cons in H as [H | H]; [congruence | exact H].
      * destruct (IH (addTrack track c).1 true (evs ++ requestKeyFrameFromClient s pid))
          as (c' & need' & evs' & Hfold & Hid & Hneed).
        exists c', need', evs'. split; [exact Hfold|]. split.
        -- rewrite Hid. apply RoomProofs.addTrack_ID.
        -- split; [|intros _; apply Hneed; left; reflexivity].
           intros _. right. split; [exact Hne | apply Exists_cons_hd; exact Hcur].
    + rewrite (bool_decide_eq_false_2 _ Heq).
      destruct (IH c need evs) as (c' & need' & evs' & Hfold & Hid & Hneed).
      exists c', need', evs'. repeat split; try assumption.
      * intros H. apply Hneed in H as [H | [H _]]; [left; exact H | contradiction].
      * intros [H | [H _]]; [apply Hneed; left; exact H | contradiction].
Qed.

Lemma syncPeers_general s cur (peers : list Client) : forall c need evs,
  exists c' need' evs',
    foldl (syncPeer s cur) (c, need, evs) peers = (c', need', evs')
    /\ ID c' = ID c
    /\ (need' = true
        <-> need = true
            \/ Exists (fun peer =>
                         ID c ≠ ID peer
                         /\ Exists (fun track =>
                                      cur !! trackKey (trackStreamID track) (trackID track)
                                      = None)
                                   ((map_to_list (tracks peer)).*2))
                      peers).
Proof.
  induction peers as [|peer peers IH]; intros c need evs.
  - exists c, need, evs. cbn. repeat split; auto.
    intros [H | H]; [exact H | inversion H].
  - cbn [foldl]. unfold syncPeer at 2.
    destruct (syncTracks_general s cur (ID peer) ((map_to_list (tracks peer)).*2) c need evs)
      as (c1 & need1 & evs1 & Hinner & Hid1 & Hneed1).
    rewrite Hinner.
    destruct (IH c1 need1 evs1) as (c' & need' & evs' & Hfold & Hid & Hneed).
    exists c', need', evs'. split; [exact Hfold|]. split; [congruence|].
    rewrite Hneed, Hneed1, Exists_cons, Hid1. tauto.
Qed.

Lemma Exists_map_values (m : gmap string Track) (P : Track -> Prop) :
  Exists P ((map_to_list m).*2) <-> exists k track, m !! k = Some track /\ P track.
Proof.
  rewrite Exists_exists. split.
  - intros (track & Hin & HP).
    apply list_elem_of_fmap in Hin as ([k t] & -> & Hin).
    apply elem_of_map_to_list in Hin. eauto.
  - intros (k & track & Hk & HP). exists track. split; [|exact HP].
    apply list_elem_of_fmap. exists (k, track). split; [reflexivity|].
    apply elem_of_map_to_list. exact Hk.
Qed.

(** X22.  [SyncTrack] asks for a renegotiation exactly when some other
    client of the room has a track whose key is not among the current
    tracks of the client, as they were when the call began; the client
    keeps its ID. *)
Theorem SyncTrack_needs_renegotiation (s : SFU) (c : Client) :
  ((SyncTrack s c).1.2 = true <-> missesTrack c (clients s))
  /\ ID (SyncTrack s c).1.1 = ID c.
Proof.
  unfold SyncTrack, missesTrack.
  destruct (syncPeers_general s (GetCurrentTracks c) (clients s) c false [])
    as (c' & need' & evs' & Hfold & Hid & Hneed).
  rewrite Hfold. cbn [fst snd]. split; [|exact Hid].
  rewrite Hneed. split.
  - intros [H | H]; [discriminate|].
    eapply Exists_impl; [exact H|]. intros peer [Hne Hex].
    split; [exact Hne|]. apply Exists_map_values in Hex. exact Hex.
  - intros H. right. eapply Exists_impl; [exact H|]. intros peer [Hne Hex].
    split; [exact Hne|]. apply Exists_map_values. exact Hex.
Qed.

(** ** Pending tracks *)

Lemma setClientTrack_grows track c :
  publishedTracks c ⊆ publishedTracks (setClientTrack track c).1
  /\ is_Some (publishedTracks (setClientTrack track c).1
                !! trackKey (trackStreamID track) (trackID track)).
Proof.
  rewrite setClientTrack_published.
  destruct (publishedTracks c !! _) eqn:E.
  - split; [reflexivity | rewrite E; eauto].
  - split; [apply insert_subseteq; exact E | rewrite lookup_insert_eq; eauto].
Qed.

Lemma foldl_processPendingStep (l : list Track) : forall c b,
  publishedTracks c ⊆ publishedTracks (foldl processPendingStep (c, b) l).1
  /\ Forall (fun track =>
               is_Some (publishedTracks (foldl processPendingStep (c, b) l).1
                          !! trackKey (trackStreamID track) (trackID track))) l.
Proof.
  induction l as [|track l IH]; intros c b; cbn [foldl].
  - split; [reflexivity | constructor].
  - unfold processPendingStep at 2 4. cbn [fst].
    destruct (setClientTrack_grows track c) as [Hsub Hin].
    destruct (setClientTrack track c) as [c1 b1]. cbn [fst] in *.
    destruct (IH c1 b1) as [IHsub IHall].
    split; [etrans; eassumption|].
    constructor; [|exact IHall].
    destruct Hin as [t Ht]. exists t. eapply lookup_weaken; eassumption.
Qed.

(** X23.  [processPendingTracks] empties the map of pending tracks and
    leaves every track that was pending in the published map, under the key
    made of its own IDs; what was published before stays published. *)
Theorem processPendingTracks_publishes (c : Client) :
  pendingReceivedTracks (processPendingTracks c).1 = ∅
  /\ publishedTracks c ⊆ publishedTracks (processPendingTracks c).1
  /\ (forall (k : string) (track : Track),
        pendingReceivedTracks c !! k = Some track ->
        is_Some (publishedTracks (processPendingTracks c).1
                   !! trackKey (trackStreamID track) (trackID track))).
Proof.
  unfold processPendingTracks. cbn.
  destruct (foldl_processPendingStep ((map_to_list (pendingReceivedTracks c)).*2) c false)
    as [Hsub Hall].
  split; [reflexivity|]. split; [exact Hsub|].
  intros k track Hk. rewrite Forall_forall in Hall. apply Hall.
  apply list_elem_of_fmap. exists (k, track). split; [reflexivity|].
  apply elem_of_map_to_list. exact Hk.
Qed.

(** X24.  A track offered to a client whose ICE connection is not up is
    only buffered: [addTrack] returns false and publishes nothing.  When
    [processPendingTracks] runs later, whatever the peer connection has
    become, the track is published. *)
Theorem pending_track_published_later (track : Track) (c : Client) (pc : PeerConnection) :
  iceConnectionState (peerConnection c) <> ICEConnectionStateConnected ->
  (addTrack track c).2 = false
  /\ publishedTracks (addTrack track c).1 = publishedTracks c
  /\ is_Some (publishedTracks
                (processPendingTracks (set_peerConnection pc (addTrack track c).1)).1
                !! trackKey (trackStreamID track) (trackID track)).
Proof.
  intros Hice. unfold addTrack. rewrite (bool_decide_eq_false_2 _ Hice). cbn [negb fst snd].
  split; [reflexivity|]. split; [reflexivity|].
  unfold processPendingTracks. cbn.
  set (pending := <[trackKey (trackStreamID track) (trackID track) := track]>
                    (pendingReceivedTracks c)).
  match goal with
  | |- context [foldl processPendingStep (?c0, false) _] =>
      destruct (foldl_processPendingStep ((map_to_list pending).*2) c0 false) as [_ Hall]
  end.
  rewrite Forall_forall in Hall. apply Hall.
  apply list_elem_of_fmap. exists (trackKey (trackStreamID track) (trackID track), track).
  split; [reflexivity|]. apply elem_of_map_to_list. apply lookup_insert_eq.
Qed.

Lemma pending_track_published_later_witness :
  (addTrack screenTrack checkingClient).2 = false
  /\ publishedTracks (addTrack screenTrack checkingClient).1 = publishedTracks checkingClient
  /\ is_Some (publishedTracks
                (processPendingTracks
                   (set_peerConnection (peerConnection connectedClient)
                      (addTrack screenTrack checkingClient).1)).1
                !! trackKey (trackStreamID screenTrack) (trackID screenTrack)).
Proof.
  apply (pending_track_published_later screenTrack checkingClient
           (peerConnection connectedClient)).
  discriminate.
Defined.

(** ** Broadcasting published tracks *)

Lemma addTrack_known track c :
  knownTo (addTrack track c).1 track
  /\ (forall other, knownTo c other -> knownTo (addTrack track c).1 other).
Proof.
  unfold knownTo, addTrack. destruct (negb _).
  - cbn. split.
    + right. rewrite lookup_insert_eq. eauto.
    + intros other [H | [t Ht]]; [left; exact H | right].
      rewrite lookup_insert. case_decide; eauto.
  - destruct (setClientTrack_grows track c) as [Hsub Hin].
    assert (Hpend : pendingReceivedTracks (setClientTrack track c).1 = pendingReceivedTracks c).
    { unfold setClientTrack. destruct (publishedTracks c !! _); [reflexivity|].
      cbn. destruct (pcAddTrack _ _); reflexivity. }
    rewrite Hpend. split; [left; exact Hin|].
    intros other [[t Ht] | H]; [left | right; exact H].
    exists t. eapply lookup_weaken; eassumption.
Qed.

Lemma foldl_broadcastStep (tracks : list PublishedTrack) : forall c b,
  ID (foldl broadcastStep (c, b) tracks).1 = ID c
  /\ (forall other, knownTo c other -> knownTo (foldl broadcastStep (c, b) tracks).1 other)
  /\ (forall pt, pt ∈ tracks -> ClientID pt ≠ ID c ->
        knownTo (foldl broadcastStep (c, b) tracks).1 (publishedTrack pt))
  /\ (Forall (fun pt => ClientID pt = ID c) tracks ->
        foldl broadcastStep (c, b) tracks = (c, b)).
Proof.
  induction tracks as [|pt tracks IH]; intros c b; cbn [foldl].
  - repeat split; auto. intros pt Hin. apply elem_of_nil in Hin. contradiction.
  - unfold broadcastStep at 2 4 6 8. cbn [fst].
    destruct (decide (ID c ≠ ClientID pt)) as [Hne | Heq].
    + rewrite (bool_decide_eq_true_2 _ Hne).
      destruct (addTrack_known (publishedTrack pt) c) as [Hnew Hold].
      pose proof (RoomProofs.addTrack_ID (publishedTrack pt) c) as Hid.
      destruct (addTrack (publishedTrack pt) c) as [c1 b1]. cbn [fst] in *.
      destruct (IH c1 b1) as (IHid & IHold & IHnew & _).
      split; [congruence|]. split; [auto|]. split.
      * intros pt' Hin Hne'. apply elem_of_cons in Hin as [-> | Hin]; [auto|].
        apply IHnew; [exact Hin | congruence].
      * intros Hall. apply Forall_cons in Hall as [Hpt _]. congruence.
    + rewrite (bool_decide_eq_false_2 _ Heq).
      destruct (IH c b) as (IHid & IHold & IHnew & IHsame).
      split; [exact IHid|]. split; [exact IHold|]. split.
      * intros pt' Hin Hne'. apply elem_of_cons in Hin as [-> | Hin]; [|auto].
        exfalso. apply Heq. congruence.
      * intros Hall. apply Forall_cons in Hall as [_ Hall]. auto.
Qed.

Lemma foldl_broadcastClientStep tracks (l : list Client) : forall acc,
  (foldl (broadcastClientStep tracks) acc l).1
  = acc.1 ++ ((fun c => (broadcastTo tracks c).1) <$> l)
  /\ (forall id, id ∈ (foldl (broadcastClientStep tracks) acc l).2 ->
        id ∈ acc.2
        \/ exists c, c ∈ l /\ ID c = id /\ (broadcastTo tracks c).2 = true).
Proof.
  induction l as [|c l IH]; intros [done started]; cbn [foldl fmap list_fmap].
  - cbn. rewrite app_nil_r. auto.
  - destruct (IH (broadcastClientStep tracks (done, started) c)) as [IH1 IH2].
    unfold broadcastClientStep in IH1, IH2 |- *.
    destruct (foldl_broadcastStep tracks c false) as (Hid & _).
    fold (broadcastTo tracks c) in Hid.
    destruct (broadcastTo tracks c) as [c' renegotiate] eqn:E. cbn [fst snd] in *.
    split.
    + rewrite IH1, <- app_assoc. reflexivity.
    + intros id Hin. apply IH2 in Hin as [Hin | (c0 & Hc0 & Hid0 & Hr0)].
      * destruct renegotiate; [|left; exact Hin].
        apply elem_of_app in Hin as [Hin | Hin]; [left; exact Hin | right].
        apply list_elem_of_singleton in Hin. subst id.
        exists c. split; [apply list_elem_of_here|]. rewrite E. auto.
      * right. exists c0. split; [apply list_elem_of_further; exact Hc0 | auto].
Qed.




(** ** Signaling *)

(** X27.  One renegotiation operation sends at most one offer to the
    signaling layer: the loop is over after its first round. *)
Theorem renegotiateQueuOp_at_most_one_offer
    (envs : list RenegotiateEnv) (c c' : Client) :
  renegotiateQueuOp envs c = Some c' ->
  events c' = events c \/ events c' = events c ++ [EvOnRenegotiation].
Proof.
  unfold renegotiateQueuOp.
  destruct (isInRemoteNegotiation _); [intros [= <-]; left; reflexivity|].
  destruct (isInRenegotiation _); [intros [= <-]; left; reflexivity|].
  destruct envs as [|env rest]; [discriminate|].
  cbn [renegotiateLoop NegotiationNeeded set_isInRenegotiation set_NegotiationNeeded].
  set (c0 := set_NegotiationNeeded false _).
  assert (Hev0 : events c0 = events c) by reflexivity.
  destruct (canRenegotiate c0).
  - pose proof (RoomProofs.renegotiateRound_flags env c0) as (Hneed & _ & Hev).
    destruct (renegotiateRound env c0) as [c1 returned]. cbn [fst] in *.
    rewrite Hev0 in Hev.
    destruct returned.
    + intros [= <-]. exact Hev.
    + rewrite RoomProofs.renegotiateLoop_done by exact Hneed.
      intros [= <-]. exact Hev.
  - rewrite RoomProofs.renegotiateLoop_done by reflexivity.
    intros [= <-]. left. reflexivity.
Qed.

Lemma renegotiateQueuOp_at_most_one_offer_witness :
  exists c',
    renegotiateQueuOp [goodRound] alice = Some c'
    /\ (events c' = events alice \/ events c' = events alice ++ [EvOnRenegotiation]).
Proof.
  eexists. split; [reflexivity|].
  apply (renegotiateQueuOp_at_most_one_offer [goodRound] alice). reflexivity.
Defined.



(** X29.  A renegotiation asked for while the client cannot renegotiate
    (it has ended, or its peer connection is not connected or not in the
    stable signaling state) is dropped: no offer is sent, and afterwards
    neither [NegotiationNeeded] nor [isInRenegotiation] is set. *)
Theorem renegotiateQueuOp_dropped (env : RenegotiateEnv) (rest : list RenegotiateEnv)
    (c : Client) :
  isInRemoteNegotiation c = false ->
  isInRenegotiation c = false ->
  canRenegotiate c = false ->
  exists c',
    renegotiateQueuOp (env :: rest) c = Some c'
    /\ events c' = events c
    /\ NegotiationNeeded c' = false
    /\ isInRenegotiation c' = false
    /\ peerConnection c' = peerConnection c.
Proof.
  intros Hremote Hlocal Hcannot. unfold renegotiateQueuOp.
  cbn [isInRemoteNegotiation isInRenegotiation set_NegotiationNeeded].
  rewrite Hremote, Hlocal.
  cbn [renegotiateLoop NegotiationNeeded set_isInRenegotiation set_NegotiationNeeded].
  change (canRenegotiate _) with (canRenegotiate c). rewrite Hcannot.
  rewrite RoomProofs.renegotiateLoop_done by reflexivity.
  eexists. split; [reflexivity|]. cbn. auto.
Qed.

Lemma renegotiateQueuOp_dropped_witness :
  exists c',
    renegotiateQueuOp [goodRound] checkingClient = Some c'
    /\ events c' = events checkingClient
    /\ NegotiationNeeded c' = false
    /\ isInRenegotiation c' = false
    /\ peerConnection c' = peerConnection checkingClient.
Proof.
  apply (renegotiateQueuOp_dropped goodRound [] checkingClient); reflexivity.
Defined.

End RoomOpsProofs.
